(** * The keyboard display loop of qmk-hid-display (src/index.js)

    A shallow embedding of the part of [index.js] that drives the keyboard
    display: the frame encoder and the packet chunker of [sendToKeyboard],
    the paced asynchronous write loop, the refresh decisions and the push
    stage of [updateKeyboardScreen], the ["data"] and ["error"] handlers of
    the HID handle and [triggerUpdate].

    JavaScript strings are sequences of UTF-16 code units and [charCodeAt]
    yields one of them, so a string is a [list N]; the entries of
    [screenBuffer] are those code units.  Time stamps are integers well
    below 2^53, so [Date.now()] arithmetic is exact and modelled in [Z]. *)

From Stdlib Require Import ZArith NArith QArith Lia Lqa Bool String Ascii.
From stdpp Require Import base decidable option numbers list sorting.

Local Open Scope nat_scope.

(** ** JavaScript values that reach the display code *)

Definition jsstring := list N.

(** [data[i]] on a report: a byte, or [undefined] past the end. *)
Inductive jsval :=
| Undefined
| Num (n : N).

Definition index_report (data : list N) (i : nat) : jsval :=
  match data !! i with
  | Some b => Num b
  | None => Undefined
  end.

(** Code units of a Rocq string, used to write scenarios down. *)
Fixpoint codes (s : string) : jsstring :=
  match s with
  | EmptyString => []
  | String c s' => N_of_ascii c :: codes s'
  end.

(** [screen.charCodeAt(i)]; the encoder only asks for positions inside the
    string, outside of it JavaScript answers NaN, rendered here as 0. *)
Definition charCodeAt (screen : jsstring) (i : nat) : N :=
  default 0%N (screen !! i).

Definition SPACE : N := 32.

(** ** Frame encoding: lines 342-350 of [sendToKeyboard] *)

(** The bound [screenHeight * screenWidth] of the loop.  When either factor
    is [undefined] the product is NaN and [i < NaN] is false at once. *)
Definition frame_cells (screenWidth screenHeight : jsval) : nat :=
  match screenHeight, screenWidth with
  | Num h, Num w => N.to_nat (h * w)
  | _, _ => 0
  end.

(** What one iteration pushes at index [i]. *)
Definition cell (screen : jsstring) (i : nat) : N :=
  if (Z.of_nat (length screen) - 1 <=? Z.of_nat i)%Z
  then SPACE
  else charCodeAt screen i.

(** The loop [for (let i = 0; i < cells; i++) screenBuffer.push(...)],
    with [todo] iterations still to run from index [i]. *)
Fixpoint encode_loop (screen : jsstring) (todo i : nat) : list N :=
  match todo with
  | O => []
  | S todo' => cell screen i :: encode_loop screen todo' (S i)
  end.

Definition encode (screen : jsstring) (screenWidth screenHeight : jsval) : list N :=
  encode_loop screen (frame_cells screenWidth screenHeight) 0.

(** ** Chunking: lines 352-362 of [sendToKeyboard] *)

Definition chunkSize : nat := 31.

(** [buf.slice(a, b)] for [0 <= a] and [0 <= b]. *)
Definition slice (buf : list N) (a b : nat) : list N :=
  take (b - a) (drop a buf).

(** The loop [for (let i = 0; i < screenBuffer.length; i += chunkSize - 1)].
    [fuel] bounds the number of iterations; [build_lines] gives it
    [length buf], and [i] grows by 30 each time. *)
Fixpoint lines_loop (fuel i : nat) (packetType : N) (buf : list N) : list (list N) :=
  match fuel with
  | O => []
  | S fuel' =>
      if decide (i < length buf) then
        ([0%N; packetType] ++ slice buf i (Nat.min (i + chunkSize - 1) (length buf)))
          :: lines_loop fuel' (i + (chunkSize - 1)) 3%N buf
      else []
  end.

Definition build_lines (buf : list N) : list (list N) :=
  lines_loop (length buf) 0 2%N buf.

(** The payload of a packet: what follows the two header bytes. *)
Definition payload (line : list N) : list N := drop 2 line.

(** The type byte of a packet. *)
Definition typeByte (line : list N) : option N := line !! 1.

(** ** The HID world *)

(** An entry of [hid.devices()].  [accepts] is not a field of node-hid: it
    is the environment's answer to how the device behind the entry will
    behave once opened, [None] for a device whose writes never throw and
    [Some n] for one that takes [n] data packets and throws on every write
    after them.  Opening the device and the initialization write are taken
    to succeed; an exception there is not caught anywhere in [index.js] and
    ends the process. *)
Record device_info := {
  product : string;
  usage : N;
  usagePage : N;
  path : string;
  accepts : option nat
}.

(** An open handle, [new hid.HID(d.path)]. *)
Record HID := {
  hid_path : string;
  writes_left : option nat
}.

(** [handle.write(line)]: the handle afterwards, or [None] when it throws. *)
Definition hid_write (h : HID) : option HID :=
  match writes_left h with
  | None => Some h
  | Some (S n) => Some {| hid_path := hid_path h; writes_left := Some n |}
  | Some O => None
  end.

(** What went out on the wire.  The frame number of a chunk is a ghost
    label: the count of sends started before the one that wrote it. *)
Inductive written :=
| Init (line : list N)
| Chunk (frame : nat) (line : list N).

(** The steps left of a suspended [sendToKeyboard]: [await wait(ms)] and
    [keyboard.write(line)]. *)
Inductive op :=
| Wait (ms : nat)
| WriteLine (line : list N).

(** The data-refresh functions the scheduler calls. *)
Inductive trigger := GetPerfs | GetStocks | GetWeather.

#[global] Instance trigger_eq_dec : EqDecision trigger.
Proof. solve_decision. Defined.

(** How a call of the async [sendToKeyboard] left its promise when control
    came back to the caller.  [Skipped] is the early [return] of line 335
    (a fulfilled promise as well, told apart for the statements below). *)
Inductive outcome := Skipped | Fulfilled | Pending | Rejected.

(** ** Constants of [index.js] *)

Definition KEYBOARD_NAME : string := "Kyria Keyboard".
Definition KEYBOARD_USAGE_ID : N := 97.       (* 0x61 *)
Definition KEYBOARD_USAGE_PAGE : N := 65376.  (* 0xff60 *)

Definition KEYBOARD_UPDATE_TIME : Z := 1000.
Definition STOCK_UPDATE_TIME : Z := 60000.
Definition STOCK_BACKGROUND_TIME : Z := STOCK_UPDATE_TIME * 30.
Definition WEATHER_UPDATE_TIME : Z := 60000.
Definition WEATHER_BACKGROUND_TIME : Z := WEATHER_UPDATE_TIME * 10.
Definition PERF_UPDATE_TIME : Z := KEYBOARD_UPDATE_TIME.
Definition PERF_BACKGROUND_TIME : Z := PERF_UPDATE_TIME * 10.

Definition SCREEN_PERF : N := 1.
Definition SCREEN_STOCK : N := 2.
Definition SCREEN_WEATHER : N := 3.

(** [v == n] and [v <= n] for a report entry [v]: [undefined] compares
    false either way. *)
Definition js_eq_num (v : jsval) (n : N) : bool :=
  match v with
  | Num m => (m =? n)%N
  | Undefined => false
  end.

Definition js_le_num (v : jsval) (n : Z) : bool :=
  match v with
  | Num m => (Z.of_N m <=? n)%Z
  | Undefined => false
  end.

(** The test that guards each data source in [updateKeyboardScreen]:
    [(currentScreenIndex === slot && last + active <= now)
      || (last + background <= now)]. *)
Definition due (cur slot : N) (last active background now : Z) : bool :=
  ((cur =? slot)%N && (last + active <=? now)%Z) || (last + background <=? now)%Z.

Definition active_interval (t : trigger) : Z :=
  match t with
  | GetPerfs => PERF_UPDATE_TIME
  | GetStocks => STOCK_UPDATE_TIME
  | GetWeather => WEATHER_UPDATE_TIME
  end.

Definition background_interval (t : trigger) : Z :=
  match t with
  | GetPerfs => PERF_BACKGROUND_TIME
  | GetStocks => STOCK_BACKGROUND_TIME
  | GetWeather => WEATHER_BACKGROUND_TIME
  end.

Definition slot_of (t : trigger) : N :=
  match t with
  | GetPerfs => SCREEN_PERF
  | GetStocks => SCREEN_STOCK
  | GetWeather => SCREEN_WEATHER
  end.

(** [d.product === KEYBOARD_NAME && d.usage === KEYBOARD_USAGE_ID
     && d.usagePage === KEYBOARD_USAGE_PAGE]. *)
Definition is_keyboard (d : device_info) : bool :=
  String.eqb (product d) KEYBOARD_NAME
  && (usage d =? KEYBOARD_USAGE_ID)%N
  && (usagePage d =? KEYBOARD_USAGE_PAGE)%N.

Section Display.

(** The state private to the renderers of the data sources ([lastWeather]
    and [lastWeatherDescIndex] for the weather screen): a renderer may read
    and change it each time it draws. *)
Context {R : Type}.

(** [osu.os.platform() === "darwin"]. *)
Variable darwin : bool.

(** A renderer, [(w, h) => text]; it is taken to return. *)
Definition renderer := jsval → jsval → R → jsstring * R.

(** The module variables of [index.js] that the display loop uses
    ([screens] to [last_updates]), and the rest of the world it acts on:
    the renderers' state, the suspended activations of [sendToKeyboard]
    with the frame number and the steps each has left, the packets the
    device took, the refresh functions called so far and the number of
    sends started. *)
Record state := {
  screens : list (option renderer);
  currentScreenIndex : N;
  screenWidth : jsval;
  screenHeight : jsval;
  keyboard : option HID;
  screenBuffer : option (list N);
  screenLastUpdate : option jsstring;
  timer : option Z;
  last_updates : N → Z;
  collaborators : R;
  suspended : list (nat * list op);
  wire : list written;
  invoked : list trigger;
  frames : nat
}.

Definition set_screens (v : list (option renderer)) (st : state) : state :=
  {| screens := v; currentScreenIndex := currentScreenIndex st;
     screenWidth := screenWidth st; screenHeight := screenHeight st;
     keyboard := keyboard st; screenBuffer := screenBuffer st;
     screenLastUpdate := screenLastUpdate st; timer := timer st;
     last_updates := last_updates st; collaborators := collaborators st;
     suspended := suspended st; wire := wire st; invoked := invoked st;
     frames := frames st |}.

Definition set_keyboard (v : option HID) (st : state) : state :=
  {| screens := screens st; currentScreenIndex := currentScreenIndex st;
     screenWidth := screenWidth st; screenHeight := screenHeight st;
     keyboard := v; screenBuffer := screenBuffer st;
     screenLastUpdate := screenLastUpdate st; timer := timer st;
     last_updates := last_updates st; collaborators := collaborators st;
     suspended := suspended st; wire := wire st; invoked := invoked st;
     frames := frames st |}.

Definition set_screenBuffer (v : option (list N)) (st : state) : state :=
  {| screens := screens st; currentScreenIndex := currentScreenIndex st;
     screenWidth := screenWidth st; screenHeight := screenHeight st;
     keyboard := keyboard st; screenBuffer := v;
     screenLastUpdate := screenLastUpdate st; timer := timer st;
     last_updates := last_updates st; collaborators := collaborators st;
     suspended := suspended st; wire := wire st; invoked := invoked st;
     frames := frames st |}.

Definition set_screenLastUpdate (v : option jsstring) (st : state) : state :=
  {| screens := screens st; currentScreenIndex := currentScreenIndex st;
     screenWidth := screenWidth st; screenHeight := screenHeight st;
     keyboard := keyboard st; screenBuffer := screenBuffer st;
     screenLastUpdate := v; timer := timer st;
     last_updates := last_updates st; collaborators := collaborators st;
     suspended := suspended st; wire := wire st; invoked := invoked st;
     frames := frames st |}.

Definition set_timer (v : option Z) (st : state) : state :=
  {| screens := screens st; currentScreenIndex := currentScreenIndex st;
     screenWidth := screenWidth st; screenHeight := screenHeight st;
     keyboard := keyboard st; screenBuffer := screenBuffer st;
     screenLastUpdate := screenLastUpdate st; timer := v;
     last_updates := last_updates st; collaborators := collaborators st;
     suspended := suspended st; wire := wire st; invoked := invoked st;
     frames := frames st |}.

Definition set_last_updates (v : N → Z) (st : state) : state :=
  {| screens := screens st; currentScreenIndex := currentScreenIndex st;
     screenWidth := screenWidth st; screenHeight := screenHeight st;
     keyboard := keyboard st; screenBuffer := screenBuffer st;
     screenLastUpdate := screenLastUpdate st; timer := timer st;
     last_updates := v; collaborators := collaborators st;
     suspended := suspended st; wire := wire st; invoked := invoked st;
     frames := frames st |}.

Definition set_collaborators (v : R) (st : state) : state :=
  {| screens := screens st; currentScreenIndex := currentScreenIndex st;
     screenWidth := screenWidth st; screenHeight := screenHeight st;
     keyboard := keyboard st; screenBuffer := screenBuffer st;
     screenLastUpdate := screenLastUpdate st; timer := timer st;
     last_updates := last_updates st; collaborators := v;
     suspended := suspended st; wire := wire st; invoked := invoked st;
     frames := frames st |}.

Definition set_suspended (v : list (nat * list op)) (st : state) : state :=
  {| screens := screens st; currentScreenIndex := currentScreenIndex st;
     screenWidth := screenWidth st; screenHeight := screenHeight st;
     keyboard := keyboard st; screenBuffer := screenBuffer st;
     screenLastUpdate := screenLastUpdate st; timer := timer st;
     last_updates := last_updates st; collaborators := collaborators st;
     suspended := v; wire := wire st; invoked := invoked st;
     frames := frames st |}.

Definition set_wire (v : list written) (st : state) : state :=
  {| screens := screens st; currentScreenIndex := currentScreenIndex st;
     screenWidth := screenWidth st; screenHeight := screenHeight st;
     keyboard := keyboard st; screenBuffer := screenBuffer st;
     screenLastUpdate := screenLastUpdate st; timer := timer st;
     last_updates := last_updates st; collaborators := collaborators st;
     suspended := suspended st; wire := v; invoked := invoked st;
     frames := frames st |}.

Definition set_invoked (v : list trigger) (st : state) : state :=
  {| screens := screens st; currentScreenIndex := currentScreenIndex st;
     screenWidth := screenWidth st; screenHeight := screenHeight st;
     keyboard := keyboard st; screenBuffer := screenBuffer st;
     screenLastUpdate := screenLastUpdate st; timer := timer st;
     last_updates := last_updates st; collaborators := collaborators st;
     suspended := suspended st; wire := wire st; invoked := v;
     frames := frames st |}.

Definition set_frames (v : nat) (st : state) : state :=
  {| screens := screens st; currentScreenIndex := currentScreenIndex st;
     screenWidth := screenWidth st; screenHeight := screenHeight st;
     keyboard := keyboard st; screenBuffer := screenBuffer st;
     screenLastUpdate := screenLastUpdate st; timer := timer st;
     last_updates := last_updates st; collaborators := collaborators st;
     suspended := suspended st; wire := wire st; invoked := invoked st;
     frames := v |}.

Definition select (i : N) (w h : jsval) (st : state) : state :=
  {| screens := screens st; currentScreenIndex := i; screenWidth := w;
     screenHeight := h; keyboard := keyboard st;
     screenBuffer := screenBuffer st;
     screenLastUpdate := screenLastUpdate st; timer := timer st;
     last_updates := last_updates st; collaborators := collaborators st;
     suspended := suspended st; wire := wire st; invoked := invoked st;
     frames := frames st |}.

(** [last_updates[slot] = t]. *)
Definition stamp (slot : N) (t : Z) (st : state) : state :=
  set_last_updates (fun k => if (k =? slot)%N then t else last_updates st k) st.

(** Lines 39-53: the module variables when the script starts. *)
Definition blank : renderer := fun _ _ r => ([], r).

Definition initial (r : R) : state :=
  {| screens := [None; Some blank; Some blank; Some blank];
     currentScreenIndex := 0; screenWidth := Num 0; screenHeight := Num 0;
     keyboard := None; screenBuffer := None; screenLastUpdate := None;
     timer := None; last_updates := fun _ => 0%Z; collaborators := r;
     suspended := []; wire := []; invoked := []; frames := 0 |}.

(** ** [sendToKeyboard] *)

(** [keyboard.write(line)] inside a send: writing through a [null]
    [keyboard] throws as a handle that refuses the packet does. *)
Definition keyboard_write (frame : nat) (line : list N) (st : state) : option state :=
  match keyboard st with
  | Some h =>
      match hid_write h with
      | Some h' => Some (set_wire (wire st ++ [Chunk frame line]) (set_keyboard (Some h') st))
      | None => None
      end
  | None => None
  end.

(** Runs the steps of a send until it suspends on a [wait], finishes
    (line 383, [screenBuffer = null]) or a write throws, which rejects the
    promise and leaves everything as it is at that point.  Nothing handles
    the rejection; the event loop goes on, as Node does when it only warns
    about unhandled rejections. *)
Fixpoint exec (frame : nat) (ops : list op) (st : state) : outcome * state :=
  match ops with
  | [] => (Fulfilled, set_screenBuffer None st)
  | Wait _ :: rest => (Pending, set_suspended (suspended st ++ [(frame, rest)]) st)
  | WriteLine line :: rest =>
      match keyboard_write frame line st with
      | Some st' => exec frame rest st'
      | None => (Rejected, st)
      end
  end.

(** Lines 368-380: the body of [for (const line of lines)]. *)
Definition paced_line (line : list N) : list op :=
  if darwin then [Wait 100; WriteLine line; Wait 100]
  else [WriteLine line; Wait 20].

Definition paced (lines : list (list N)) : list op :=
  flat_map paced_line lines.

(** Lines 328-384, up to the point where control returns to the caller. *)
Definition sendToKeyboard (func : renderer) (st : state) : outcome * state :=
  let '(screen, r) := func (screenWidth st) (screenHeight st) (collaborators st) in
  let st := set_collaborators r st in
  if bool_decide (screenBuffer st ≠ None) || bool_decide (screenLastUpdate st = Some screen)
  then (Skipped, st)
  else
    let st := set_screenLastUpdate (Some screen) st in
    let buf := encode screen (screenWidth st) (screenHeight st) in
    let st := set_screenBuffer (Some buf) st in
    let frame := frames st in
    let st := set_frames (S frame) st in
    exec frame (paced (build_lines buf)) st.

(** ** [updateKeyboardScreen] *)

(** Lines 390-401: one of the three [if]s; the refresh function is called
    and the time stamp assigned right after the call. *)
Definition slot_due (t : trigger) (now : Z) (st : state) : bool :=
  due (currentScreenIndex st) (slot_of t) (last_updates st (slot_of t))
      (active_interval t) (background_interval t) now.

Definition refresh_if_due (t : trigger) (now : Z) (st : state) : state :=
  if slot_due t now st
  then stamp (slot_of t) now (set_invoked (invoked st ++ [t]) st)
  else st.

Definition refresh_stage (now : Z) (st : state) : state :=
  refresh_if_due GetWeather now
    (refresh_if_due GetStocks now
       (refresh_if_due GetPerfs now st)).

(** Lines 403-444: look for the keyboard when there is none, open the first
    match and announce the number of screens. *)
Definition connect_stage (devs : list device_info) (st : state) : state :=
  match keyboard st with
  | Some _ => st
  | None =>
      match List.find is_keyboard devs with
      | Some d =>
          set_wire (wire st ++ [Init [0%N; 1%N; N.of_nat (length (screens st))]])
            (set_keyboard (Some {| hid_path := path d; writes_left := accepts d |}) st)
      | None => st
      end
  end.

(** Lines 446-455.  [sendToKeyboard] is an async function called without
    [await]: the call hands back a promise whatever happens inside, nothing
    is thrown into the [try], and the [catch] with its [keyboard = null]
    never runs. *)
Definition push_stage (st : state) : state :=
  match keyboard st, screens st !! N.to_nat (currentScreenIndex st) with
  | Some _, Some (Some func) =>
      match sendToKeyboard func st with
      | (_, st') => st'
      end
  | _, _ => st
  end.

Definition updateKeyboardScreen (now : Z) (devs : list device_info) (st : state) : state :=
  push_stage (connect_stage devs (refresh_stage now st)).

(** Lines 458-467.  [timer] holds the time at which the running interval
    was armed. *)
Definition triggerUpdate (now : Z) (devs : list device_info) (st : state) : state :=
  set_timer (Some now) (updateKeyboardScreen now devs st).

(** ** The handlers of the HID handle *)

(** Line 425: [data[0] == 1 && data[1] <= screens.length - 1]. *)
Definition valid_report (data : list N) (st : state) : bool :=
  js_eq_num (index_report data 0) 1
  && js_le_num (index_report data 1) (Z.of_nat (length (screens st)) - 1).

(** Lines 423-434. *)
Definition on_data (data : list N) (now : Z) (devs : list device_info) (st : state) : state :=
  if valid_report data st then
    match index_report data 1 with
    | Num i =>
        triggerUpdate now devs (select i (index_report data 2) (index_report data 3) st)
    | Undefined => st
    end
  else st.

(** Lines 417-420. *)
Definition on_error (st : state) : state := set_keyboard None st.

(** ** The data sources, seen from the display loop *)

(** How a call of [getPerfs] ends: with the new renderer, at time [t], or
    in its [catch], which only logs. *)
Definition getPerfs_done (res : option renderer) (t : Z) (st : state) : state :=
  match res with
  | Some f => stamp SCREEN_PERF t (set_screens (<[N.to_nat SCREEN_PERF := Some f]> (screens st)) st)
  | None => st
  end.

Definition getStocks_done (res : option renderer) (t : Z) (st : state) : state :=
  match res with
  | Some f => stamp SCREEN_STOCK t (set_screens (<[N.to_nat SCREEN_STOCK := Some f]> (screens st)) st)
  | None => st
  end.

(** [getWeather] installs its renderer and nothing else: the assignment to
    [last_updates] of line 320 follows a [return]. *)
Definition getWeather_done (res : option renderer) (st : state) : state :=
  match res with
  | Some f => set_screens (<[N.to_nat SCREEN_WEATHER := Some f]> (screens st)) st
  | None => st
  end.

Definition trigger_done (t : trigger) (res : option renderer) (at_time : Z) (st : state) : state :=
  match t with
  | GetPerfs => getPerfs_done res at_time st
  | GetStocks => getStocks_done res at_time st
  | GetWeather => getWeather_done res st
  end.

(** ** The event loop *)

(** The [k]-th suspended send wakes up from its [wait]. *)
Definition resume (k : nat) (st : state) : state :=
  match suspended st !! k with
  | Some (frame, ops) => snd (exec frame ops (set_suspended (delete k (suspended st)) st))
  | None => st
  end.

(** What the event loop can run next: the call of [triggerUpdate] that ends
    the script, a tick of the interval, the two events of the handle, the
    end of a [wait] and the end of a refresh.  [now] is what [Date.now()]
    answers and [devs] what [hid.devices()] answers while the event is
    handled.  No order is imposed on the events: every run of the program
    is a list of them. *)
Inductive event :=
| Startup (now : Z) (devs : list device_info)
| Tick (now : Z) (devs : list device_info)
| Data (data : list N) (now : Z) (devs : list device_info)
| Error
| Resume (k : nat)
| Done (t : trigger) (res : option renderer) (at_time : Z).

Definition step (e : event) (st : state) : state :=
  match e with
  | Startup now devs => triggerUpdate now devs st
  | Tick now devs => updateKeyboardScreen now devs st
  | Data data now devs => on_data data now devs st
  | Error => on_error st
  | Resume k => resume k st
  | Done t res at_time => trigger_done t res at_time st
  end.

Definition run (evs : list event) (st : state) : state :=
  fold_left (fun s e => step e s) evs st.

Inductive reachable : state → Prop :=
| reachable_initial r : reachable (initial r)
| reachable_step e st : reachable st → reachable (step e st).

(** The refresh functions a tick at [now] calls, in call order. *)
Definition refreshed_by_tick (now : Z) (st : state) : list trigger :=
  drop (length (invoked st)) (invoked (refresh_stage now st)).

(** Wakes the first suspended send [n] times. *)
Fixpoint drain (n : nat) (st : state) : state :=
  match n with
  | O => st
  | S n' => drain n' (resume 0 st)
  end.

(** The frame numbers on the wire, in the order written. *)
Definition frame_of (w : written) : option nat :=
  match w with
  | Init _ => None
  | Chunk frame _ => Some frame
  end.

Definition wire_frames (st : state) : list nat :=
  omap frame_of (wire st).

Definition data_lines (ws : list written) : list (list N) :=
  omap (fun w => match w with Chunk _ line => Some line | Init _ => None end) ws.

(** ** Notions used in the statements *)

Implicit Types (st : state) (func : renderer).

(** The fields a send never assigns. *)
Definition same_schedule st st' : Prop :=
  screens st' = screens st
  ∧ currentScreenIndex st' = currentScreenIndex st
  ∧ screenWidth st' = screenWidth st
  ∧ screenHeight st' = screenHeight st
  ∧ timer st' = timer st
  ∧ last_updates st' = last_updates st
  ∧ invoked st' = invoked st.

(** The rendering a push starts with. *)
Definition rendered func st : jsstring :=
  fst (func (screenWidth st) (screenHeight st) (collaborators st)).

Definition after_render func st : state :=
  set_collaborators (snd (func (screenWidth st) (screenHeight st) (collaborators st))) st.

(** The state in which the steps of a new frame start to run. *)
Definition started func st : state :=
  set_frames (S (frames st))
    (set_screenBuffer
       (Some (encode (rendered func st) (screenWidth st) (screenHeight st)))
       (set_screenLastUpdate (Some (rendered func st)) (after_render func st))).

(** Every chunk on the wire belongs to a send that has started, and the
    frame numbers never go down. *)
Definition wire_ok st : Prop :=
  Forall (λ f, f < frames st) (wire_frames st)
  ∧ StronglySorted le (wire_frames st).

(** At most one send is suspended; it is the latest one started and
    [screenBuffer] is still set for it. *)
Definition flight_ok st : Prop :=
  length (suspended st) ≤ 1
  ∧ ∀ f ops, (f, ops) ∈ suspended st → S f = frames st ∧ screenBuffer st ≠ None.

(** [screenBuffer] is only set after [screenLastUpdate] was. *)
Definition buffer_ok st : Prop :=
  screenBuffer st ≠ None → screenLastUpdate st ≠ None.

(** [screens] keeps its four entries and slot 0 stays [null]. *)
Definition slots_ok st : Prop :=
  ∃ a b c, screens st = [None; a; b; c].

Definition Inv st : Prop :=
  wire_ok st ∧ flight_ok st ∧ buffer_ok st ∧ slots_ok st.

(** The lines a sequence of steps writes and the number of times it
    suspends. *)
Fixpoint written_by (ops : list op) : list (list N) :=
  match ops with
  | [] => []
  | Wait _ :: rest => written_by rest
  | WriteLine line :: rest => line :: written_by rest
  end.

Fixpoint waits (ops : list op) : nat :=
  match ops with
  | [] => 0
  | Wait _ :: rest => S (waits rest)
  | WriteLine _ :: rest => waits rest
  end.

(** The handle in [keyboard] takes every write. *)
Definition healthy st : Prop :=
  ∃ h, keyboard st = Some h ∧ writes_left h = None.



End Display.

(** ** Scenarios *)

Definition kyria (n : option nat) : device_info :=
  {| product := "Kyria Keyboard"; usage := 97; usagePage := 65376;
     path := "/dev/hidraw3"; accepts := n |}.

(** A renderer that draws the same text whatever the size. *)
Definition fixed (text : jsstring) : @renderer unit := fun _ _ r => (text, r).

Definition text70 : jsstring := replicate 70 120%N.

(** A keyboard that takes one data packet and then refuses writes; the
    performance screen, 10 by 7, is selected and its frame of 70 cells
    needs three packets. *)
Definition failing_send : list (@event unit) :=
  [ Startup 1700000000000 [kyria (Some 1)];
    Done GetPerfs (Some (fixed text70)) 1700000000500;
    Data [1; 1; 10; 7]%N 1700000001000 [kyria (Some 1)];
    Resume 0 ].

Definition after_failing_send : @state unit :=
  run false failing_send (initial tt).



(** A healthy keyboard that has taken the first of the three packets of
    the 10 by 7 performance screen; the send waits before the second. *)
Definition in_flight : @state unit :=
  run false [ Startup 1700000000000 [kyria None];
              Done GetPerfs (Some (fixed text70)) 1700000000500;
              Data [1; 1; 10; 7]%N 1700000001000 [kyria None] ] (initial tt).

(** A healthy keyboard and a performance text, before any report. *)
Definition perf_ready : @state unit :=
  run false [ Startup 1700000000000 [kyria None];
              Done GetPerfs (Some (fixed text70)) 1700000000500 ] (initial tt).

(** A healthy keyboard, a 10 by 7 display, screen 0 selected. *)
Definition idle_10x7 : @state unit :=
  run false [ Startup 1700000000000 [kyria None];
              Data [1; 0; 10; 7]%N 1700000001000 [kyria None] ] (initial tt).

(** ** The text layout shared by the renderers

    Lines 109-111, 229-231 and 315-317 end the three renderers with the
    same chain: every line is padded with spaces and cut to the width, the
    first [h] lines are kept and joined. *)

(** [s.padEnd(n, ' ')]; [undefined] as target length pads nothing. *)
Definition padEnd (s : jsstring) (n : jsval) : jsstring :=
  match n with
  | Num n => s ++ replicate (N.to_nat n - length s) SPACE
  | Undefined => s
  end.

(** [x.slice(0, n)] on a string or an array; [undefined] as end keeps
    everything. *)
Definition slice0 {A} (x : list A) (n : jsval) : list A :=
  match n with
  | Num n => take (N.to_nat n) x
  | Undefined => x
  end.

(** [lines.map(line => line.padEnd(w, ' ').slice(0, w)).slice(0, h).join("")]. *)
Definition layout (lines : list jsstring) (w h : jsval) : jsstring :=
  concat (slice0 (map (λ line, slice0 (padEnd line w) w) lines) h).

(** ** The stock screen: lines 122-135, 184-186 and 219-231 *)

(** An entry of [config['stocks']]: the fields [getStockKey] reads, each a
    string or missing. *)
Record stock := {
  stock_function : option jsstring;
  stock_symbol : option jsstring;
  stock_from_currency : option jsstring
}.

(** A key of the [stocks] map: what [getStockKey] can return. *)
Inductive jskey :=
| KeyNull
| KeyUndefined
| KeyString (s : jsstring).

#[global] Instance jskey_eq_dec : EqDecision jskey.
Proof. solve_decision. Defined.

(** [stock[name]] as a key. *)
Definition field_key (v : option jsstring) : jskey :=
  match v with
  | Some s => KeyString s
  | None => KeyUndefined
  end.

(** Lines 126-135. *)
Definition getStockKey (s : stock) : jskey :=
  if bool_decide (stock_function s = Some (codes "GLOBAL_QUOTE")) then
    field_key (stock_symbol s)
  else if bool_decide (stock_function s = Some (codes "CURRENCY_EXCHANGE_RATE")) then
    field_key (stock_from_currency s)
  else KeyNull.

(** [stocks.set(key, value)] on a [Map]: an entry that exists keeps its
    place, a new one goes to the end. *)
Fixpoint map_set (key : jskey) (value : jsstring) (m : list (jskey * jsstring))
  : list (jskey * jsstring) :=
  match m with
  | [] => [(key, value)]
  | (k, v) :: rest =>
      if decide (k = key) then (key, value) :: rest
      else (k, v) :: map_set key value rest
  end.

(** [stocks.get(key)]. *)
Fixpoint map_get (key : jskey) (m : list (jskey * jsstring)) : option jsstring :=
  match m with
  | [] => None
  | (k, v) :: rest => if decide (k = key) then Some v else map_get key rest
  end.

(** Lines 184-186: the [stocks] map when the script starts. *)
Definition initial_stocks (config : list stock) : list (jskey * jsstring) :=
  fold_left (λ m s, map_set (getStockKey s) (codes "???") m) config [].

(** [key.length]; on [null] and [undefined] it throws. *)
Definition key_length (k : jskey) : option nat :=
  match k with
  | KeyString s => Some (length s)
  | _ => None
  end.

(** [Math.max(...sizes)]; with no size at all JavaScript answers
    -Infinity, which no line then uses. *)
Definition max_size (sizes : list nat) : nat := foldr Nat.max 0 sizes.

(** [`${key.padEnd(maxTitleSize)} ${value}`]. *)
Definition stock_line (maxTitleSize : nat) (entry : jskey * jsstring) : option jsstring :=
  match fst entry with
  | KeyString s => Some (padEnd s (Num (N.of_nat maxTitleSize)) ++ [SPACE] ++ snd entry)
  | _ => None
  end.

(** Lines 219-225, inside the [try] of [getStocks]: the lines of the stock
    screen, or [None] when a key without [length] makes line 221 throw. *)
Definition stock_lines (stocks : list (jskey * jsstring)) : option (list jsstring) :=
  match mapM key_length (map fst stocks) with
  | Some sizes => mapM (stock_line (max_size sizes)) stocks
  | None => None
  end.

(** The width of the title column: the longest key. *)
Definition title_size (stocks : list (jskey * jsstring)) : nat :=
  max_size (omap key_length (map fst stocks)).

(** Line 122-124, for a [test] made of literal characters as at both call
    sites: the pattern [^(?:\d*\. )?test$]. *)
Definition is_digit (c : N) : bool := (48 <=? c)%N && (c <=? 57)%N.

Fixpoint skip_digits (s : jsstring) : jsstring :=
  match s with
  | c :: rest => if is_digit c then skip_digits rest else s
  | [] => []
  end.

Definition matchStockKey (key test : jsstring) : bool :=
  bool_decide (key = test)
  || match skip_digits key with
     | dot :: space :: rest =>
         (dot =? 46)%N && (space =? 32)%N && bool_decide (rest = test)
     | _ => false
     end.

(** ** The wind direction: lines 267-274

    [deg] is a finite number.  The remainder and the comparisons of
    floating-point numbers are exact, and the bounds are multiples of one
    half, so rationals compute what the code computes. *)

(** [a % b]: the remainder has the sign of [a]. *)
Definition Qtrunc (q : Q) : Z := Z.quot (Qnum q) (Zpos (Qden q)).

Definition js_rem (a b : Q) : Q := (a - inject_Z (Qtrunc (a / b)) * b)%Q.

Definition Qgt_bool (x y : Q) : bool := negb (Qle_bool x y).
Definition Qlt_bool (x y : Q) : bool := negb (Qle_bool y x).

(** The test of line 274 is [deg > 202.5 && 337.5]; the number on the right
    is truthy. *)
Definition windDirection (degrees : Q) : jsstring :=
  let deg := js_rem degrees 360 in
  let ns :=
    if Qgt_bool deg (585 # 2) || Qle_bool deg (135 # 2) then codes "N"
    else if Qgt_bool deg (225 # 2) && Qlt_bool deg (495 # 2) then codes "S"
    else [] in
  let ew :=
    if Qgt_bool deg (45 # 2) && Qlt_bool deg (315 # 2) then codes "E"
    else if Qgt_bool deg (405 # 2) && true then codes "W"
    else [] in
  ns ++ ew.

(** ** The weather renderer: lines 242-243 and 285-318 *)

(** The array [weather]: at least the city and the description rows, each
    a label and a text. *)
Record weather_rows := {
  weather0 : jsstring * jsstring;
  weather1 : jsstring * jsstring;
  weather_more : list (jsstring * jsstring)
}.

(** [lastWeather] and [lastWeatherDescIndex]. *)
Record scroll := {
  lastWeather : option weather_rows;
  lastWeatherDescIndex : Z
}.

Definition initial_scroll : scroll :=
  {| lastWeather := None; lastWeatherDescIndex := 0 |}.

(** [`${line[0]}: ${line[1]}`]. *)
Definition weather_line (line : jsstring * jsstring) : jsstring :=
  fst line ++ codes ": " ++ snd line.

(** Lines 286-310: the index after one drawing.  [screenWidth], which the
    renderer reads here, is the [w] it is called with. *)
Definition scroll_step (weather : weather_rows) (w : jsval) (s : scroll) : Z :=
  let description := snd (weather1 weather) in
  if bool_decide (description ≠ []) then
    match w, lastWeather s with
    | Num width, Some last =>
        let maxLen := (Z.of_N width - Z.of_nat (length (fst (weather1 weather))) - 2)%Z in
        if bool_decide (description = snd (weather1 last))
           && (maxLen <? Z.of_nat (length description))%Z
        then
          let index := (lastWeatherDescIndex s + 1)%Z in
          if (Z.of_nat (length description) - maxLen <? index)%Z then (-1)%Z else index
        else 0%Z
    | _, _ => 0%Z
    end
  else lastWeatherDescIndex s.

(** Lines 285-318.  The scrolled [description] of lines 299-302 is not
    used by the text that is returned. *)
Definition weather_renderer (weather : weather_rows) : @renderer scroll :=
  fun w h s =>
    (layout (map weather_line (weather0 weather :: weather1 weather :: weather_more weather)) w h,
     {| lastWeather := Some weather; lastWeatherDescIndex := scroll_step weather w s |}).

(** The text the weather renderer returns. *)
Definition weather_text (weather : weather_rows) (w h : jsval) : jsstring :=
  layout (map weather_line (weather0 weather :: weather1 weather :: weather_more weather)) w h.

(** A renderer of lines 228-231: the text depends on the size only. *)
Definition lines_renderer {R} (lines : list jsstring) : @renderer R :=
  fun w h r => (layout lines w h, r).

(** Lines 219-236 of [getStocks], after the requests have all answered:
    the renderer is installed and the time stamp taken, or line 221 has
    thrown and the [catch] only logs. *)
Definition getStocks_finish {R} (stocks : list (jskey * jsstring)) (t : Z)
    (st : @state R) : @state R :=
  getStocks_done (option_map lines_renderer (stock_lines stocks)) t st.

(** ** Notions used for the wire *)

(** The lines of the chunks of one frame, in the order written. *)
Definition chunk_of (frame : nat) (w : written) : option (list N) :=
  match w with
  | Chunk f line => if decide (f = frame) then Some line else None
  | Init _ => None
  end.

Definition chunks_of (frame : nat) (ws : list written) : list (list N) :=
  omap (chunk_of frame) ws.

(** Every [keyboard.write] of a send is followed by a [wait]. *)
Fixpoint spaced (ops : list op) : Prop :=
  match ops with
  | [] => True
  | Wait _ :: rest => spaced rest
  | WriteLine _ :: rest =>
      match rest with
      | Wait _ :: _ => spaced rest
      | _ => False
      end
  end.

(** The chunks a suspended send has written and the lines it has left
    make up the packets of one buffer, and its writes are spaced. *)
Definition flight_lines_ok {R} (st : @state R) : Prop :=
  ∀ f ops, (f, ops) ∈ suspended st →
    spaced ops ∧ ∃ buf, chunks_of f (wire st) ++ written_by ops = build_lines buf.

(** The chunks of every frame on the wire are the first packets of one
    buffer. *)
Definition wire_lines_ok {R} (st : @state R) : Prop :=
  ∀ f, ∃ buf, chunks_of f (wire st) `prefix_of` build_lines buf.

(** Every initialization packet announces four screens. *)
Definition inits_ok {R} (st : @state R) : Prop :=
  ∀ line, Init line ∈ wire st → line = [0; 1; 4]%N.

Definition lines_inv {R} (st : @state R) : Prop :=
  flight_lines_ok st ∧ wire_lines_ok st ∧ inits_ok st.

(** A send has failed: [screenBuffer] is set and no send is suspended. *)
Definition wedged {R} (st : @state R) : Prop :=
  screenBuffer st ≠ None ∧ suspended st = [].

Definition is_tick {R} (e : @event R) : Prop :=
  match e with
  | Tick _ _ => True
  | _ => False
  end.

(** ** Scenarios for the renderers *)

Definition two_stocks : list (jskey * jsstring) :=
  [ (KeyString (codes "AAPL"), codes "$ 150.1");
    (KeyString (codes "EUR"), codes "$ 1.08") ].

Definition unknown_stock : stock :=
  {| stock_function := Some (codes "TIME_SERIES_DAILY");
     stock_symbol := Some (codes "AAPL");
     stock_from_currency := None |}.

Definition drizzle : weather_rows :=
  {| weather0 := (codes "city", codes "Seattle US");
     weather1 := (codes "desc", codes "light intensity drizzle");
     weather_more := [(codes "temp", codes "11.3C")] |}.

(** The weather screen, 16 by 3, shown once in full on a healthy
    keyboard. *)
Definition weather_shown : @state scroll :=
  run false [ Startup 1700000000000 [kyria None];
              Done GetWeather (Some (weather_renderer drizzle)) 1700000000500;
              Data [1; 3; 16; 3]%N 1700000001000 [kyria None];
              Resume 0; Resume 0 ] (initial initial_scroll).

(** The state of [failing_send] before the send wakes up. *)
Definition before_failure : @state unit :=
  run false (take 3 failing_send) (initial tt).

(** ** Properties of the encoder *)

Lemma encode_loop_length screen todo i :
  length (encode_loop screen todo i) = todo.
Proof.
  revert i; induction todo as [|todo IH]; intros i; simpl; [done|].
  by rewrite IH.
Qed.

Lemma encode_loop_lookup screen todo i k :
  k < todo → encode_loop screen todo i !! k = Some (cell screen (i + k)).
Proof.
  revert i k; induction todo as [|todo IH]; intros i k Hk; [lia|].
  destruct k as [|k]; simpl.
  - by rewrite Nat.add_0_r.
  - rewrite IH by lia. f_equal. f_equal. lia.
Qed.

Lemma cell_inside screen i :
  S i < length screen → cell screen i = charCodeAt screen i.
Proof.
  intros Hi. unfold cell.
  destruct (Z.leb_spec (Z.of_nat (length screen) - 1) (Z.of_nat i)); [lia|done].
Qed.

Lemma cell_outside screen i :
  length screen ≤ S i → cell screen i = SPACE.
Proof.
  intros Hi. unfold cell.
  destruct (Z.leb_spec (Z.of_nat (length screen) - 1) (Z.of_nat i)); [done|lia].
Qed.

Lemma encode_lookup screen (width height : N) i :
  i < N.to_nat (width * height) →
  encode screen (Num width) (Num height) !! i
  = Some (if decide (S i < length screen) then charCodeAt screen i else SPACE).
Proof.
  intros Hi. unfold encode, frame_cells.
  rewrite encode_loop_lookup by lia. simpl. f_equal.
  destruct (decide (S i < length screen)).
  - by apply cell_inside.
  - apply cell_outside. lia.
Qed.

(** The last character of a text never reaches the frame. *)
Lemma encode_last_character screen (width height : N) i :
  S i = length screen → i < N.to_nat (width * height) →
  encode screen (Num width) (Num height) !! i = Some SPACE.
Proof.
  intros Hlast Hi. rewrite encode_lookup by done.
  destruct (decide (S i < length screen)); [lia|done].
Qed.

(** ** Properties of the chunker *)

Lemma payload_header a b p : payload ([a; b] ++ p) = p.
Proof. done. Qed.

Lemma slice_chunk buf i :
  slice buf i (Nat.min (i + chunkSize - 1) (length buf)) = take 30 (drop i buf).
Proof.
  unfold slice, chunkSize.
  destruct (decide (i + 30 ≤ length buf)) as [Hle|Hgt].
  - f_equal. lia.
  - rewrite !take_ge; [done| |]; rewrite length_drop; lia.
Qed.

Lemma lines_loop_lookup fuel i ty buf k line :
  lines_loop fuel i ty buf !! k = Some line →
  line = [0%N; if decide (k = 0) then ty else 3%N] ++ take 30 (drop (i + k * 30) buf)
  ∧ i + k * 30 < length buf.
Proof.
  revert i ty k line; induction fuel as [|fuel IH]; intros i ty k line; simpl; [done|].
  destruct (decide (i < length buf)) as [Hi|Hi]; [|done].
  destruct k as [|k]; simpl.
  - intros [= <-]. rewrite slice_chunk, Nat.add_0_r. done.
  - intros Hk. apply IH in Hk as [-> Hlt]. unfold chunkSize in *.
    split; [|lia].
    assert (Hdrop : ∀ a b, a = b → take 30 (drop a buf) = take 30 (drop b buf))
      by (by intros ?? ->).
    destruct (decide (k = 0)); simpl; do 2 f_equal; apply Hdrop; lia.
Qed.

Lemma ceil30_step d : 1 ≤ d → S ((d - 30 + 29) / 30) = (d + 29) / 30.
Proof.
  intros Hd. destruct (decide (30 ≤ d)) as [Hbig|Hsmall].
  - replace (d + 29) with ((d - 30 + 29) + 1 * 30) by lia.
    rewrite Nat.div_add by done. lia.
  - replace (d - 30 + 29) with 29 by lia.
    apply (Nat.div_unique _ 30 1 (d - 1)); lia.
Qed.

Lemma lines_loop_length fuel i ty buf :
  length buf - i ≤ fuel →
  length (lines_loop fuel i ty buf) = (length buf - i + 29) / 30.
Proof.
  revert i ty; induction fuel as [|fuel IH]; intros i ty Hfuel; cbn [lines_loop].
  - replace (length buf - i) with 0 by lia. done.
  - destruct (decide (i < length buf)) as [Hi|Hi]; cbn [length].
    + rewrite IH by (unfold chunkSize; lia). unfold chunkSize.
      rewrite <- (ceil30_step (length buf - i)) by lia.
      do 3 f_equal. lia.
    + replace (length buf - i) with 0 by lia. done.
Qed.

Lemma lines_loop_payloads fuel i ty buf :
  length buf - i ≤ fuel →
  concat (map payload (lines_loop fuel i ty buf)) = drop i buf.
Proof.
  revert i ty; induction fuel as [|fuel IH]; intros i ty Hfuel; simpl.
  - rewrite drop_ge by lia. done.
  - destruct (decide (i < length buf)) as [Hi|Hi]; simpl.
    + rewrite IH by (unfold chunkSize; lia). rewrite slice_chunk.
      unfold payload, chunkSize. simpl. rewrite drop_0.
      replace (i + (31 - 1)) with (i + 30) by lia.
      rewrite <- drop_drop. apply take_drop.
    + rewrite drop_ge by lia. done.
Qed.

(** ** What each part of the loop leaves alone *)

Section DisplayFacts.

Context {R : Type}.
Variable darwin : bool.

Implicit Types (st : @state R) (func : @renderer R).

Lemma same_schedule_refl st : same_schedule st st.
Proof. by repeat split. Qed.

Lemma same_schedule_trans st1 st2 st3 :
  same_schedule st1 st2 → same_schedule st2 st3 → same_schedule st1 st3.
Proof.
  intros (?&?&?&?&?&?&?) (?&?&?&?&?&?&?). repeat split; congruence.
Qed.

Lemma keyboard_write_Some frame line st st' :
  keyboard_write frame line st = Some st' →
  ∃ h h', keyboard st = Some h ∧ hid_write h = Some h'
          ∧ st' = set_wire (wire st ++ [Chunk frame line]) (set_keyboard (Some h') st).
Proof.
  unfold keyboard_write. destruct (keyboard st) as [h|]; [|done].
  destruct (hid_write h) as [h'|] eqn:Hh; [|done]. intros [= <-]. by exists h, h'.
Qed.

Lemma exec_schedule frame ops st :
  same_schedule st (snd (exec frame ops st))
  ∧ screenLastUpdate (snd (exec frame ops st)) = screenLastUpdate st
  ∧ collaborators (snd (exec frame ops st)) = collaborators st
  ∧ frames (snd (exec frame ops st)) = frames st.
Proof.
  revert st; induction ops as [|[ms|line] ops IH]; intros st; simpl.
  - by repeat split.
  - by repeat split.
  - destruct (keyboard_write frame line st) as [st'|] eqn:Hw; simpl.
    + apply keyboard_write_Some in Hw as (h & h' & _ & _ & ->).
      destruct (IH (set_wire (wire st ++ [Chunk frame line]) (set_keyboard (Some h') st)))
        as (Hs & -> & -> & ->).
      split; [|done]. eapply same_schedule_trans; [|exact Hs]. by repeat split.
    + by repeat split.
Qed.

(** The early [return] of line 335. *)
Lemma sendToKeyboard_skip func st :
  screenBuffer st ≠ None ∨ screenLastUpdate st = Some (rendered func st) →
  sendToKeyboard darwin func st = (Skipped, after_render func st).
Proof.
  intros Hskip. unfold sendToKeyboard, rendered, after_render in *.
  destruct (func _ _ _) as [screen r]; simpl in *.
  destruct Hskip as [Hb|Hl].
  - by rewrite bool_decide_eq_true_2.
  - rewrite (bool_decide_eq_true_2 (_ = Some screen)) by done.
    by rewrite orb_true_r.
Qed.

Lemma sendToKeyboard_start func st :
  screenBuffer st = None → screenLastUpdate st ≠ Some (rendered func st) →
  sendToKeyboard darwin func st =
  exec (frames st)
       (paced darwin (build_lines (encode (rendered func st) (screenWidth st) (screenHeight st))))
       (started func st).
Proof.
  intros Hb Hl. unfold sendToKeyboard, started, rendered, after_render in *.
  destruct (func _ _ _) as [screen r]; simpl in *.
  rewrite bool_decide_eq_false_2 by (by rewrite Hb; intros []).
  by rewrite bool_decide_eq_false_2.
Qed.

Lemma sendToKeyboard_cases func st :
  (screenBuffer st ≠ None ∨ screenLastUpdate st = Some (rendered func st))
  ∨ (screenBuffer st = None ∧ screenLastUpdate st ≠ Some (rendered func st)).
Proof.
  destruct (screenBuffer st) as [b|]; [left; by left|].
  destruct (decide (screenLastUpdate st = Some (rendered func st))); [left|right]; auto.
Qed.

Lemma sendToKeyboard_schedule func st :
  same_schedule st (snd (sendToKeyboard darwin func st)).
Proof.
  destruct (sendToKeyboard_cases func st) as [Hskip|[Hb Hl]].
  - rewrite sendToKeyboard_skip by done. by repeat split.
  - rewrite sendToKeyboard_start by done.
    eapply same_schedule_trans; [|apply exec_schedule]. by repeat split.
Qed.

Lemma push_stage_schedule st : same_schedule st (push_stage darwin st).
Proof.
  unfold push_stage. destruct (keyboard st); [|apply same_schedule_refl].
  destruct (screens st !! _) as [[func|]|]; try apply same_schedule_refl.
  pose proof (sendToKeyboard_schedule func st) as Hs.
  by destruct (sendToKeyboard darwin func st).
Qed.

Lemma connect_stage_schedule devs st : same_schedule st (connect_stage devs st).
Proof.
  unfold connect_stage. destruct (keyboard st); [apply same_schedule_refl|].
  destruct (find is_keyboard devs); by repeat split.
Qed.

Lemma refresh_if_due_fields t now st :
  let st' := refresh_if_due t now st in
  screens st' = screens st
  ∧ currentScreenIndex st' = currentScreenIndex st
  ∧ screenWidth st' = screenWidth st
  ∧ screenHeight st' = screenHeight st
  ∧ keyboard st' = keyboard st
  ∧ screenBuffer st' = screenBuffer st
  ∧ screenLastUpdate st' = screenLastUpdate st
  ∧ timer st' = timer st
  ∧ collaborators st' = collaborators st
  ∧ suspended st' = suspended st
  ∧ wire st' = wire st
  ∧ frames st' = frames st.
Proof. unfold refresh_if_due. by destruct (slot_due _ _ _). Qed.

Lemma refresh_stage_fields now st :
  let st' := refresh_stage now st in
  screens st' = screens st
  ∧ currentScreenIndex st' = currentScreenIndex st
  ∧ screenWidth st' = screenWidth st
  ∧ screenHeight st' = screenHeight st
  ∧ keyboard st' = keyboard st
  ∧ screenBuffer st' = screenBuffer st
  ∧ screenLastUpdate st' = screenLastUpdate st
  ∧ timer st' = timer st
  ∧ collaborators st' = collaborators st
  ∧ suspended st' = suspended st
  ∧ wire st' = wire st
  ∧ frames st' = frames st.
Proof.
  unfold refresh_stage; simpl.
  destruct (refresh_if_due_fields GetPerfs now st)
    as (?&?&?&?&?&?&?&?&?&?&?&?).
  destruct (refresh_if_due_fields GetStocks now (refresh_if_due GetPerfs now st))
    as (?&?&?&?&?&?&?&?&?&?&?&?).
  destruct (refresh_if_due_fields GetWeather now
              (refresh_if_due GetStocks now (refresh_if_due GetPerfs now st)))
    as (?&?&?&?&?&?&?&?&?&?&?&?).
  simpl in *. repeat split; congruence.
Qed.

Lemma connect_stage_fields devs st :
  let st' := connect_stage devs st in
  screenBuffer st' = screenBuffer st
  ∧ screenLastUpdate st' = screenLastUpdate st
  ∧ collaborators st' = collaborators st
  ∧ suspended st' = suspended st
  ∧ frames st' = frames st
  ∧ (wire st' = wire st
     ∨ wire st' = wire st ++ [Init [0%N; 1%N; N.of_nat (length (screens st))]]).
Proof.
  unfold connect_stage. destruct (keyboard st); [by repeat split; auto|].
  destruct (find is_keyboard devs); simpl; repeat split; auto.
Qed.

(** ** Invariants of the event loop *)

Lemma sorted_lookup_le (l : list nat) i j a b :
  StronglySorted le l → i ≤ j → l !! i = Some a → l !! j = Some b → a ≤ b.
Proof.
  intros Hs; revert i j; induction Hs as [|x l Hs IH Hx]; intros i j Hij Hi Hj; [done|].
  destruct i as [|i], j as [|j]; simpl in *; try lia.
  - assert (a = b) by congruence. lia.
  - injection Hi as <-. rewrite Forall_forall in Hx.
    apply Hx. by eapply list_elem_of_lookup_2.
  - eapply (IH i j); [lia|done..].
Qed.

Lemma wire_ok_chunk st h frame line :
  S frame = frames st → wire_ok st →
  wire_ok (set_wire (wire st ++ [Chunk frame line]) (set_keyboard h st)).
Proof.
  intros Hf [Hlt Hs]. unfold wire_ok, wire_frames in *; simpl.
  rewrite omap_app; simpl. split.
  - apply Forall_app; split; [done|]. apply Forall_singleton. lia.
  - apply StronglySorted_app_2; [|done|repeat constructor].
    intros x1 x2 Hx1 ->%list_elem_of_singleton.
    rewrite Forall_forall in Hlt. specialize (Hlt _ Hx1). lia.
Qed.

Lemma exec_inv frame ops st :
  suspended st = [] → S frame = frames st →
  screenBuffer st ≠ None → screenLastUpdate st ≠ None → wire_ok st →
  let st' := snd (exec frame ops st) in
  wire_ok st' ∧ flight_ok st' ∧ buffer_ok st'.
Proof.
  revert st; induction ops as [|[ms|line] ops IH]; intros st Hsus Hf Hb Hl Hw; simpl.
  - split; [exact Hw|]. unfold flight_ok, buffer_ok; simpl. rewrite Hsus; simpl.
    split; [split; [lia|]|done]. by intros f o ?%elem_of_nil.
  - split; [exact Hw|]. unfold flight_ok, buffer_ok; simpl. rewrite Hsus; simpl.
    split; [split; [lia|]|done]. by intros f o [= -> ->]%list_elem_of_singleton.
  - destruct (keyboard_write frame line st) as [st'|] eqn:Hkw; simpl.
    + apply keyboard_write_Some in Hkw as (h & h' & _ & _ & ->).
      apply IH; try done. by apply wire_ok_chunk.
    + split; [exact Hw|]. unfold flight_ok, buffer_ok; simpl. rewrite Hsus; simpl.
      split; [split; [lia|]|done]. by intros f o ?%elem_of_nil.
Qed.

(** With no send suspended in a state of the invariant and the buffer
    clear, nothing is in flight. *)
Lemma flight_idle st :
  flight_ok st → screenBuffer st = None → suspended st = [].
Proof.
  intros [_ Hall] Hb. destruct (suspended st) as [|[f o] l]; [done|].
  destruct (Hall f o) as [_ Hn]; [left|]. done.
Qed.

Lemma sendToKeyboard_inv func st :
  Inv st → Inv (snd (sendToKeyboard darwin func st)).
Proof.
  intros (Hw & Hfl & Hbuf & Hsl).
  assert (slots_ok (snd (sendToKeyboard darwin func st))) as Hsl'.
  { destruct (sendToKeyboard_schedule func st) as (Hs & _).
    unfold slots_ok. by rewrite Hs. }
  destruct (sendToKeyboard_cases func st) as [Hskip|[Hb Hl]].
  - rewrite sendToKeyboard_skip in * by done. done.
  - rewrite sendToKeyboard_start in * by done.
    destruct (exec_inv (frames st)
                (paced darwin (build_lines
                   (encode (rendered func st) (screenWidth st) (screenHeight st))))
                (started func st)) as (? & ? & ?); try done.
    + simpl. by apply flight_idle.
    + destruct Hw as [Hlt Hs]. split; [|done]. unfold wire_frames in *; simpl.
      eapply Forall_impl; [exact Hlt|]. simpl. lia.
Qed.

Lemma Inv_same st st' :
  screenBuffer st' = screenBuffer st →
  screenLastUpdate st' = screenLastUpdate st →
  suspended st' = suspended st →
  wire_frames st' = wire_frames st →
  frames st' = frames st →
  slots_ok st' →
  Inv st → Inv st'.
Proof.
  intros Hb Hl Hs Hw Hf Hsl (Hwire & Hfl & Hbuf & _).
  unfold Inv, wire_ok, flight_ok, buffer_ok in *.
  by rewrite Hb, Hl, Hs, Hw, Hf.
Qed.

Lemma refresh_stage_inv now st : Inv st → Inv (refresh_stage now st).
Proof.
  intros HI.
  destruct (refresh_stage_fields now st) as (Hsc&_&_&_&_&Hb&Hl&_&_&Hs&Hw&Hf).
  apply (Inv_same st); try done.
  - unfold wire_frames. by rewrite Hw.
  - unfold slots_ok. rewrite Hsc. apply HI.
Qed.

Lemma connect_stage_inv devs st : Inv st → Inv (connect_stage devs st).
Proof.
  intros HI.
  destruct (connect_stage_fields devs st) as (Hb&Hl&_&Hs&Hf&Hw).
  apply (Inv_same st); try done.
  - unfold wire_frames. destruct Hw as [->| ->]; [done|].
    rewrite omap_app; simpl. by rewrite app_nil_r.
  - destruct (connect_stage_schedule devs st) as (Hsc & _).
    unfold slots_ok. rewrite Hsc. apply HI.
Qed.

Lemma push_stage_inv st : Inv st → Inv (push_stage darwin st).
Proof.
  intros HI. unfold push_stage. destruct (keyboard st); [|done].
  destruct (screens st !! _) as [[func|]|]; try done.
  pose proof (sendToKeyboard_inv func st HI) as HI'.
  by destruct (sendToKeyboard darwin func st).
Qed.

Lemma updateKeyboardScreen_inv now devs st :
  Inv st → Inv (updateKeyboardScreen darwin now devs st).
Proof.
  intros HI. unfold updateKeyboardScreen.
  by apply push_stage_inv, connect_stage_inv, refresh_stage_inv.
Qed.

Lemma triggerUpdate_inv now devs st :
  Inv st → Inv (triggerUpdate darwin now devs st).
Proof.
  intros HI%(updateKeyboardScreen_inv now devs). unfold triggerUpdate.
  apply (Inv_same (updateKeyboardScreen darwin now devs st)); try done. apply HI.
Qed.

Lemma on_data_inv data now devs st :
  Inv st → Inv (on_data darwin data now devs st).
Proof.
  intros HI. unfold on_data. destruct (valid_report data st); [|done].
  destruct (index_report data 1) as [|i]; [done|].
  apply triggerUpdate_inv. apply (Inv_same st); try done. apply HI.
Qed.

Lemma resume_inv k st : Inv st → Inv (resume k st).
Proof.
  intros HI. unfold resume.
  destruct (suspended st !! k) as [[f ops]|] eqn:Hk; [|done].
  destruct HI as (Hw & [Hlen Hall] & Hbuf & Hsl).
  destruct (Hall f ops) as [Hf Hb]; [by eapply list_elem_of_lookup_2|].
  assert (delete k (suspended st) = []) as Hdel.
  { apply length_zero_iff_nil. apply lookup_lt_Some in Hk as Hlt.
    rewrite length_delete by done. lia. }
  rewrite Hdel.
  destruct (exec_inv f ops (set_suspended [] st)) as (? & ? & ?); try done; [by apply Hbuf|].
  destruct (exec_schedule f ops (set_suspended [] st)) as ((Hsc & _) & _).
  do 3 (split; [done|]). unfold slots_ok. by rewrite Hsc.
Qed.

Lemma trigger_done_inv t res at_time st : Inv st → Inv (trigger_done t res at_time st).
Proof.
  intros HI. pose proof HI as (_ & _ & _ & (a & b & c & Hsc)).
  destruct t, res as [f|]; simpl; try done;
    (apply (Inv_same st); [done..| |done]);
    unfold slots_ok; simpl; rewrite Hsc; simpl; eauto.
Qed.

Lemma step_inv e st : Inv st → Inv (step darwin e st).
Proof.
  intros HI. destruct e; simpl.
  - by apply triggerUpdate_inv.
  - by apply updateKeyboardScreen_inv.
  - by apply on_data_inv.
  - apply (Inv_same st); try done. apply HI.
  - by apply resume_inv.
  - by apply trigger_done_inv.
Qed.

Lemma initial_inv (r : R) : Inv (initial r).
Proof.
  split; [split; constructor|].
  split; [split; [simpl; lia|by intros f ops ?%elem_of_nil]|].
  split; [intros Hb; by destruct Hb|].
  by exists (Some blank), (Some blank), (Some blank).
Qed.

Lemma reachable_run evs st :
  reachable darwin st → reachable darwin (run darwin evs st).
Proof.
  revert st; induction evs as [|e evs IH]; intros st Hr; [done|].
  apply (IH (step darwin e st)). by constructor.
Qed.

Lemma reachable_inv st : reachable darwin st → Inv st.
Proof.
  induction 1 as [r|e st _ IH]; [apply initial_inv|by apply step_inv].
Qed.

(** ** A send that runs to its end *)

Lemma written_by_paced lines : written_by (paced darwin lines) = lines.
Proof.
  unfold paced, paced_line. induction lines as [|l lines IH]; [done|].
  simpl. destruct darwin; simpl; by rewrite IH.
Qed.

Lemma waits_paced lines :
  waits (paced darwin lines) = (if darwin then 2 else 1) * length lines.
Proof.
  unfold paced, paced_line. induction lines as [|l lines IH]; simpl.
  - by destruct darwin.
  - destruct darwin; simpl in *; rewrite IH; lia.
Qed.

Lemma exec_drain frame ops st :
  healthy st → suspended st = [] →
  let st' := drain (waits ops) (snd (exec frame ops st)) in
  wire st' = wire st ++ map (Chunk frame) (written_by ops)
  ∧ screenBuffer st' = None
  ∧ suspended st' = [].
Proof.
  revert st; induction ops as [|[ms|line] ops IH]; intros st Hh Hs; simpl.
  - by rewrite app_nil_r.
  - rewrite Hs; simpl. unfold resume; simpl.
    destruct (IH (set_suspended [] (set_suspended [(frame, ops)] st))) as (Hw & Hb & Hsus);
      [done..|].
    simpl in Hw. done.
  - destruct Hh as (h & Hk & Hleft). unfold keyboard_write, hid_write.
    rewrite Hk, Hleft.
    destruct (IH (set_wire (wire st ++ [Chunk frame line]) (set_keyboard (Some h) st)))
      as (Hw & Hb & Hsus); [by exists h|done|].
    simpl in Hw. rewrite Hw, <- app_assoc. done.
Qed.

(** ** The frame and its packets *)

(** C1. For a frame buffer of length L the chunker builds exactly
    ceil(L / 30) packets; packet [k] is the header [0; type] followed by
    at most 30 payload bytes, with type 2 for the first packet and 3 for
    every later one, and the payloads put end to end give the buffer back.
    A push that is not skipped, on a handle that takes every write and with
    nothing in flight, puts exactly these packets on the wire, in order,
    once its waits have elapsed, and then clears [screenBuffer]. *)
Theorem C1_chunked_send (buf : list N) :
  let lines := build_lines buf in
  length lines = (length buf + 29) / 30
  ∧ length buf ≤ 30 * length lines < length buf + 30
  ∧ (∀ k line, lines !! k = Some line →
       line = [0%N; if decide (k = 0) then 2%N else 3%N] ++ payload line
       ∧ typeByte line = Some (if decide (k = 0) then 2%N else 3%N)
       ∧ length (payload line) ≤ 30)
  ∧ concat (map payload lines) = buf
  ∧ (∀ func st,
       encode (rendered func st) (screenWidth st) (screenHeight st) = buf →
       healthy st → screenBuffer st = None → suspended st = [] →
       screenLastUpdate st ≠ Some (rendered func st) →
       let st' := drain ((if darwin then 2 else 1) * length lines)
                        (snd (sendToKeyboard darwin func st)) in
       wire st' = wire st ++ map (Chunk (frames st)) lines
       ∧ screenBuffer st' = None ∧ suspended st' = []).
Proof.
  intros lines.
  assert (length lines = (length buf + 29) / 30) as Hlen.
  { unfold lines, build_lines. rewrite lines_loop_length by lia.
    by rewrite Nat.sub_0_r. }
  split; [done|]. split.
  { rewrite Hlen.
    pose proof (Nat.div_mod_eq (length buf + 29) 30) as Hdm.
    pose proof (Nat.mod_upper_bound (length buf + 29) 30) as Hub. lia. }
  split.
  { intros k line Hk. apply lines_loop_lookup in Hk as [-> _].
    rewrite payload_header. split; [done|]. split; [done|].
    rewrite length_take. lia. }
  split.
  { unfold lines, build_lines. rewrite lines_loop_payloads by lia. apply drop_0. }
  intros func st Hbuf Hh Hb Hs Hl.
  rewrite sendToKeyboard_start by done. rewrite Hbuf. fold lines.
  rewrite <- waits_paced.
  destruct (exec_drain (frames st) (paced darwin lines) (started func st))
    as (Hw & Hb' & Hs'); [done..|].
  rewrite written_by_paced in Hw. done.
Qed.

(** C2. The encoded frame has exactly [width * height] entries whatever
    the rendered text is, and none when [width * height] is 0. *)
Theorem C2_frame_length (screen : jsstring) (width height : N) :
  length (encode screen (Num width) (Num height)) = N.to_nat (width * height)
  ∧ ((width * height = 0)%N → encode screen (Num width) (Num height) = []).
Proof.
  unfold encode, frame_cells. rewrite encode_loop_length.
  split; [f_equal; lia|].
  intros Hz. replace (height * width)%N with 0%N by lia. done.
Qed.

(** C3, evaluated on the code: at width 10 and height 2 the text "AB" is
    encoded as 'A' followed by 19 spaces.  The test of line 345 is
    [i >= screen.length - 1], so the last character of the text is replaced
    by a space: 'B' is lost and the frame is not "AB" followed by 18
    spaces. *)
Theorem C3_last_character_lost :
  encode (codes "AB") (Num 10) (Num 2) = codes "A" ++ replicate 19 SPACE
  ∧ encode (codes "AB") (Num 10) (Num 2) ≠ codes "AB" ++ replicate 18 SPACE
  ∧ encode (codes "AB") (Num 10) (Num 2) !! 1 = Some SPACE
  ∧ codes "AB" !! 1 = Some 66%N.
Proof. repeat split; done. Qed.

(** ** The refresh decisions of a tick *)

Lemma due_spec cur slot last active background now :
  due cur slot last active background now = true ↔
  ((cur = slot ∧ active ≤ now - last) ∨ background ≤ now - last)%Z.
Proof.
  unfold due. rewrite orb_true_iff, andb_true_iff, N.eqb_eq, !Z.leb_le. lia.
Qed.

Lemma slot_due_other t t' now st :
  slot_of t ≠ slot_of t' →
  slot_due t' now (refresh_if_due t now st) = slot_due t' now st.
Proof.
  intros Hne. unfold refresh_if_due. destruct (slot_due t now st); [|done].
  unfold slot_due; simpl.
  destruct (N.eqb_spec (slot_of t') (slot_of t)); [congruence|done].
Qed.

Lemma refresh_if_due_invoked t now st :
  invoked (refresh_if_due t now st)
  = invoked st ++ (if slot_due t now st then [t] else []).
Proof.
  unfold refresh_if_due. destruct (slot_due t now st); simpl; [done|].
  by rewrite app_nil_r.
Qed.

Lemma refreshed_by_tick_eq now st :
  refreshed_by_tick now st
  = (if slot_due GetPerfs now st then [GetPerfs] else [])
    ++ (if slot_due GetStocks now st then [GetStocks] else [])
    ++ (if slot_due GetWeather now st then [GetWeather] else []).
Proof.
  unfold refreshed_by_tick, refresh_stage.
  rewrite !refresh_if_due_invoked.
  rewrite (slot_due_other GetStocks GetWeather) by done.
  rewrite (slot_due_other GetPerfs GetWeather) by done.
  rewrite (slot_due_other GetPerfs GetStocks) by done.
  rewrite <- !app_assoc. by rewrite drop_app_length.
Qed.

Lemma refreshed_by_tick_elem t now st :
  t ∈ refreshed_by_tick now st ↔ slot_due t now st = true.
Proof.
  rewrite refreshed_by_tick_eq.
  destruct t, (slot_due GetPerfs now st), (slot_due GetStocks now st),
    (slot_due GetWeather now st); simpl;
    rewrite ?elem_of_cons, ?elem_of_nil; intuition congruence.
Qed.

Lemma refresh_stage_invoked now st :
  invoked (refresh_stage now st) = invoked st ++ refreshed_by_tick now st.
Proof.
  rewrite refreshed_by_tick_eq. unfold refresh_stage.
  rewrite !refresh_if_due_invoked.
  rewrite (slot_due_other GetStocks GetWeather) by done.
  rewrite (slot_due_other GetPerfs GetWeather) by done.
  rewrite (slot_due_other GetPerfs GetStocks) by done.
  by rewrite <- !app_assoc.
Qed.

Lemma refresh_if_due_last t t' now st :
  last_updates (refresh_if_due t now st) (slot_of t')
  = if decide (t' = t) then (if slot_due t now st then now else last_updates st (slot_of t))
    else last_updates st (slot_of t').
Proof.
  unfold refresh_if_due.
  destruct (decide (t' = t)) as [->|Hne].
  - destruct (slot_due t now st); simpl; [|done]. by rewrite N.eqb_refl.
  - destruct (slot_due t now st); simpl; [|done].
    destruct (N.eqb_spec (slot_of t') (slot_of t)) as [He|]; [|done].
    by destruct t, t'.
Qed.

Lemma refresh_stage_last t now st :
  last_updates (refresh_stage now st) (slot_of t)
  = if slot_due t now st then now else last_updates st (slot_of t).
Proof.
  unfold refresh_stage. rewrite !refresh_if_due_last.
  destruct t; simpl;
    rewrite ?(slot_due_other GetStocks GetWeather), ?(slot_due_other GetPerfs GetWeather),
      ?(slot_due_other GetPerfs GetStocks) by done; done.
Qed.

Lemma updateKeyboardScreen_schedule now devs st :
  same_schedule (refresh_stage now st) (updateKeyboardScreen darwin now devs st).
Proof.
  unfold updateKeyboardScreen.
  eapply same_schedule_trans; [apply connect_stage_schedule|apply push_stage_schedule].
Qed.

(** A write that throws ends the send where it stands: the activation is
    gone, and [screenBuffer], [keyboard] and [screenLastUpdate] are what
    they were. *)
Lemma resume_write_throws st frame line rest :
  suspended st = [(frame, WriteLine line :: rest)] →
  keyboard_write frame line (set_suspended [] st) = None →
  resume 0 st = set_suspended [] st.
Proof.
  intros Hs Hw. unfold resume. rewrite Hs. simpl. by rewrite Hw.
Qed.

(** ** Pushes *)





Lemma exec_clears frame ops st :
  screenBuffer st ≠ None →
  screenBuffer (snd (exec frame ops st)) = None ↔ fst (exec frame ops st) = Fulfilled.
Proof.
  revert st; induction ops as [|[ms|line] ops IH]; intros st Hb; simpl; [done..|].
  destruct (keyboard_write frame line st) as [st'|] eqn:Hw; simpl; [|done].
  apply keyboard_write_Some in Hw as (h & h' & _ & _ & ->). by apply IH.
Qed.






(** C6. In every state the program can reach at most one send is
    suspended; while one is, a push returns at once without writing or
    suspending anything; and the chunks of a frame are never separated on
    the wire by a chunk of another frame. *)
Theorem C6_single_flight st :
  reachable darwin st →
  length (suspended st) ≤ 1
  ∧ (suspended st ≠ [] → ∀ func,
       sendToKeyboard darwin func st = (Skipped, after_render func st)
       ∧ wire (after_render func st) = wire st
       ∧ suspended (after_render func st) = suspended st)
  ∧ (∀ i j k a b, i < j < k →
       wire_frames st !! i = Some a → wire_frames st !! k = Some a →
       wire_frames st !! j = Some b → b = a).
Proof.
  intros ((_ & Hsorted) & (Hlen & Hall) & _ & _)%reachable_inv.
  split; [done|]. split.
  - intros Hne func. split; [|done]. apply sendToKeyboard_skip. left.
    destruct (suspended st) as [|[f ops] l]; [done|].
    by destruct (Hall f ops) as [_ Hb]; [left|].
  - intros i j k a b [Hij Hjk] Hi Hk Hj.
    pose proof (sorted_lookup_le _ i j a b Hsorted ltac:(lia) Hi Hj).
    pose proof (sorted_lookup_le _ j k b a Hsorted ltac:(lia) Hj Hk). lia.
Qed.

(** ** Reports, refreshes and the empty slot *)

Lemma valid_report_spec data st :
  valid_report data st = true ↔
  data !! 0 = Some 1%N
  ∧ ∃ i, data !! 1 = Some i
         ∧ (0 ≤ Z.of_N i ≤ Z.of_nat (length (screens st)) - 1)%Z.
Proof.
  unfold valid_report, index_report, js_eq_num, js_le_num.
  rewrite andb_true_iff.
  destruct (data !! 0) as [b0|], (data !! 1) as [b1|];
    rewrite ?N.eqb_eq, ?Z.leb_le; split.
  - intros [-> Hle]. split; [done|]. exists b1. split; [done|lia].
  - intros [[= ->] (i & [= <-] & Hle)]. split; [done|lia].
  - by intros [_ ?].
  - by intros [_ (i & ? & _)].
  - by intros [? _].
  - by intros [? _].
  - by intros [? _].
  - by intros [? _].
Qed.

Lemma triggerUpdate_selection now devs st :
  let st' := triggerUpdate darwin now devs st in
  currentScreenIndex st' = currentScreenIndex st
  ∧ screenWidth st' = screenWidth st
  ∧ screenHeight st' = screenHeight st.
Proof.
  destruct (refresh_stage_fields now st) as (_ & Hc & Hw & Hh & _).
  destruct (updateKeyboardScreen_schedule now devs st) as (_ & Hc' & Hw' & Hh' & _).
  unfold triggerUpdate. cbn -[updateKeyboardScreen].
  by rewrite Hc', Hw', Hh', Hc, Hw, Hh.
Qed.

Lemma exec_keyboard frame ops st :
  keyboard st ≠ None → keyboard (snd (exec frame ops st)) ≠ None.
Proof.
  revert st; induction ops as [|[ms|line] ops IH]; intros st Hk; simpl; [done..|].
  destruct (keyboard_write frame line st) as [st'|] eqn:Hw; simpl; [|done].
  apply keyboard_write_Some in Hw as (h & h' & _ & _ & ->). by apply IH.
Qed.

Lemma sendToKeyboard_keyboard func st :
  keyboard st ≠ None → keyboard (snd (sendToKeyboard darwin func st)) ≠ None.
Proof.
  intros Hk. destruct (sendToKeyboard_cases func st) as [Hskip|[Hb Hl]].
  - by rewrite sendToKeyboard_skip.
  - rewrite sendToKeyboard_start by done. by apply exec_keyboard.
Qed.

(** A push that finds [screenBuffer] clear leaves its text recorded. *)
Lemma sendToKeyboard_records func st :
  screenBuffer st = None →
  screenLastUpdate (snd (sendToKeyboard darwin func st)) = Some (rendered func st).
Proof.
  intros Hb. destruct (sendToKeyboard_cases func st) as [[Hn|Hl]|[_ Hl]].
  - by destruct Hn.
  - rewrite sendToKeyboard_skip by (by right). exact Hl.
  - rewrite sendToKeyboard_start by done.
    by destruct (exec_schedule (frames st)
      (paced darwin (build_lines (encode (rendered func st) (screenWidth st) (screenHeight st))))
      (started func st)) as (_ & -> & _).
Qed.

Lemma connect_stage_keyboard devs st :
  keyboard st ≠ None ∨ (∃ d, d ∈ devs ∧ is_keyboard d = true) →
  keyboard (connect_stage devs st) ≠ None.
Proof.
  intros Hk. unfold connect_stage. destruct (keyboard st) as [h|] eqn:Hkb.
  - by rewrite Hkb.
  - destruct (find is_keyboard devs) as [d|] eqn:Hfind; [done|].
    destruct Hk as [Hk|(d & Hd & Hm)]; [done|].
    apply list_elem_of_In in Hd.
    by rewrite (List.find_none _ _ Hfind d Hd) in Hm.
Qed.

Lemma exec_first_write frame line rest ms st h :
  keyboard st = Some h → writes_left h = None →
  wire (snd (exec frame (WriteLine line :: Wait ms :: rest) st))
  = wire st ++ [Chunk frame line].
Proof.
  intros Hk Hleft. simpl. unfold keyboard_write, hid_write. by rewrite Hk, Hleft.
Qed.

(** The pass that [triggerUpdate] runs, when a keyboard is there after
    the search and the selected slot has a renderer: it is the push of
    that renderer. *)
Lemma tick_pushes now devs st func :
  keyboard (connect_stage devs (refresh_stage now st)) ≠ None →
  screens st !! N.to_nat (currentScreenIndex st) = Some (Some func) →
  updateKeyboardScreen darwin now devs st
  = snd (sendToKeyboard darwin func (connect_stage devs (refresh_stage now st))).
Proof.
  intros Hk Hf. unfold updateKeyboardScreen, push_stage.
  destruct (refresh_stage_fields now st) as (Hsc0 & Hc0 & _).
  destruct (connect_stage_schedule devs (refresh_stage now st)) as (Hsc1 & Hc1 & _).
  destruct (keyboard (connect_stage devs (refresh_stage now st))); [|done].
  rewrite Hc1, Hc0, Hsc1, Hsc0, Hf. by destruct (sendToKeyboard darwin func _).
Qed.

(** C7. A report is accepted exactly when its first byte is 1 and its
    second byte is a screen index from 0 to [screens.length - 1], which is
    3 in every state the program reaches.  On an accepted report the index
    and the two dimensions are taken from the second, third and fourth
    byte and [triggerUpdate] runs a scheduler pass at once: the timer is
    armed anew at that time, the refresh functions are called as the test
    of the scheduler decides for the new index, the keyboard is looked for,
    and the renderer of the newly selected slot is drawn at the new size
    and its text recorded; on a platform other than darwin the first
    packet of its frame is written while the report is handled.  A report
    whose index is above the last valid one, like every report that is not
    accepted, leaves the whole state as it is. *)
Theorem C7_selection_report data now devs st :
  (valid_report data st = true ↔
     data !! 0 = Some 1%N
     ∧ ∃ i, data !! 1 = Some i
            ∧ (0 ≤ Z.of_N i ≤ Z.of_nat (length (screens st)) - 1)%Z)
  ∧ (reachable darwin st → length (screens st) = 4)
  ∧ (∀ i, valid_report data st = true → data !! 1 = Some i →
       let st' := on_data darwin data now devs st in
       st' = triggerUpdate darwin now devs
               (select i (index_report data 2) (index_report data 3) st)
       ∧ currentScreenIndex st' = i
       ∧ screenWidth st' = index_report data 2
       ∧ screenHeight st' = index_report data 3)
  ∧ (∀ i, data !! 1 = Some i →
       (Z.of_nat (length (screens st)) - 1 < Z.of_N i)%Z →
       on_data darwin data now devs st = st)
  ∧ (valid_report data st = false → on_data darwin data now devs st = st)
  ∧ (∀ i, valid_report data st = true → data !! 1 = Some i →
       let sel := select i (index_report data 2) (index_report data 3) st in
       let st' := on_data darwin data now devs st in
       timer st' = Some now
       ∧ invoked st' = invoked st ++ refreshed_by_tick now sel
       ∧ (∀ t, t ∈ refreshed_by_tick now sel ↔
            (i = slot_of t
             ∧ active_interval t ≤ now - last_updates st (slot_of t))
            ∨ background_interval t ≤ now - last_updates st (slot_of t))%Z
       ∧ (keyboard st ≠ None ∨ (∃ d, d ∈ devs ∧ is_keyboard d = true) →
          keyboard st' ≠ None
          ∧ ∀ func, screens st !! N.to_nat i = Some (Some func) →
              screenBuffer st = None →
              screenLastUpdate st'
              = Some (fst (func (index_report data 2) (index_report data 3)
                                (collaborators st))))
       ∧ (darwin = false →
          ∀ h func line lines,
            keyboard st = Some h → writes_left h = None →
            screens st !! N.to_nat i = Some (Some func) →
            screenBuffer st = None →
            screenLastUpdate st
            ≠ Some (fst (func (index_report data 2) (index_report data 3)
                              (collaborators st))) →
            build_lines (encode (fst (func (index_report data 2) (index_report data 3)
                                           (collaborators st)))
                                (index_report data 2) (index_report data 3))
            = line :: lines →
            wire st' = wire st ++ [Chunk (frames st) line])).
Proof.
  split; [apply valid_report_spec|]. split; [|split; [|split; [|split]]].
  - intros (_ & _ & _ & (a & b & c & ->))%reachable_inv. done.
  - intros i Hv Hi st'.
    assert (st' = triggerUpdate darwin now devs
                    (select i (index_report data 2) (index_report data 3) st)) as ->.
    { unfold st', on_data. rewrite Hv. unfold index_report at 1. by rewrite Hi. }
    split; [done|].
    destruct (triggerUpdate_selection now devs
                (select i (index_report data 2) (index_report data 3) st))
      as (-> & -> & ->).
    done.
  - intros i Hi Hgt. unfold on_data.
    destruct (valid_report data st) eqn:Hv; [|done].
    apply valid_report_spec in Hv as (_ & i' & Hi' & Hle).
    rewrite Hi in Hi'. injection Hi' as <-. lia.
  - intros Hv. unfold on_data. by rewrite Hv.
  - intros i Hv Hi sel st'.
    assert (st' = set_timer (Some now) (updateKeyboardScreen darwin now devs sel)) as ->.
    { unfold st', on_data. rewrite Hv. unfold index_report at 1. by rewrite Hi. }
    cbn -[updateKeyboardScreen refreshed_by_tick].
    destruct (updateKeyboardScreen_schedule now devs sel) as (_&_&_&_&_&_& Hinv).
    destruct (refresh_stage_fields now sel)
      as (Hsc0&Hc0&Hw0&Hh0&Hk0&Hb0&Hl0&_&Hco0&_&Hwi0&Hf0).
    change (screens sel) with (screens st) in Hsc0.
    change (currentScreenIndex sel) with i in Hc0.
    change (screenWidth sel) with (index_report data 2) in Hw0.
    change (screenHeight sel) with (index_report data 3) in Hh0.
    change (keyboard sel) with (keyboard st) in Hk0.
    change (screenBuffer sel) with (screenBuffer st) in Hb0.
    change (screenLastUpdate sel) with (screenLastUpdate st) in Hl0.
    change (collaborators sel) with (collaborators st) in Hco0.
    change (wire sel) with (wire st) in Hwi0.
    change (frames sel) with (frames st) in Hf0.
    destruct (connect_stage_fields devs (refresh_stage now sel)) as (Hb1&Hl1&Hco1&_&Hf1&_).
    destruct (connect_stage_schedule devs (refresh_stage now sel)) as (_&_&Hw1&Hh1&_).
    set (st1 := connect_stage devs (refresh_stage now sel)) in *.
    assert (∀ func, rendered func st1
              = fst (func (index_report data 2) (index_report data 3) (collaborators st)))
      as Hrender.
    { intros func. unfold rendered. by rewrite Hw1, Hh1, Hw0, Hh0, Hco1, Hco0. }
    split; [done|]. split; [by rewrite Hinv, refresh_stage_invoked|]. split; [|split].
    + intros t. rewrite refreshed_by_tick_elem. unfold slot_due. by rewrite due_spec.
    + intros Hkb.
      assert (keyboard st1 ≠ None) as Hk1.
      { apply connect_stage_keyboard. destruct Hkb as [Hkb|Hd]; [left|by right].
        by rewrite Hk0. }
      split.
      * unfold updateKeyboardScreen, push_stage. fold st1.
        destruct (keyboard st1) eqn:Hkst1; [|done].
        destruct (screens st1 !! _) as [[func|]|]; try (by rewrite Hkst1).
        pose proof (sendToKeyboard_keyboard func st1) as Hsend.
        rewrite Hkst1 in Hsend.
        destruct (sendToKeyboard darwin func st1). by apply Hsend.
      * intros func Hfunc Hbuf.
        rewrite (tick_pushes now devs sel func) by done. fold st1.
        rewrite sendToKeyboard_records by (by rewrite Hb1, Hb0).
        by rewrite Hrender.
    + intros Hd h func line lines Hkey Hleft Hfunc Hbuf Hnew Hlines.
      assert (st1 = refresh_stage now sel) as Hst1
        by (unfold st1, connect_stage; by rewrite Hk0, Hkey).
      rewrite (tick_pushes now devs sel func);
        [|fold st1; by rewrite Hst1, Hk0, Hkey|done].
      fold st1. rewrite sendToKeyboard_start;
        [|by rewrite Hb1, Hb0|by rewrite Hl1, Hl0, Hrender].
      rewrite Hrender, Hw1, Hh1, Hw0, Hh0, Hlines, Hd.
      rewrite (exec_first_write _ line (paced false lines) 20 (started func st1) h);
        [|cbn [started after_render keyboard set_frames set_screenBuffer
               set_screenLastUpdate set_collaborators]; by rewrite Hst1, Hk0|done].
      cbn [started after_render wire set_frames set_screenBuffer
           set_screenLastUpdate set_collaborators].
      by rewrite Hf1, Hf0, Hst1, Hwi0.
Qed.

(** C8. A tick calls the refresh function of a data source exactly when
    the source's slot is the selected screen and at least its active
    interval has passed since its last refresh, or at least its background
    interval has passed whatever is selected; these calls are all the
    refresh calls of the tick.  The test itself, for any intervals: with
    1000 and 30000 it fires for the selected screen at an elapsed time of
    1001 and does not fire for another screen below 30000. *)
Theorem C8_refresh_decision now devs st t :
  (t ∈ refreshed_by_tick now st ↔
     (currentScreenIndex st = slot_of t
      ∧ active_interval t ≤ now - last_updates st (slot_of t))
     ∨ background_interval t ≤ now - last_updates st (slot_of t))%Z
  ∧ invoked (updateKeyboardScreen darwin now devs st)
    = invoked st ++ refreshed_by_tick now st
  ∧ (∀ cur slot last active background elapsed,
       due cur slot last active background (last + elapsed) = true ↔
       (cur = slot ∧ active ≤ elapsed) ∨ background ≤ elapsed)%Z
  ∧ (∀ last, due 1 1 last 1000 30000 (last + 1001) = true)
  ∧ (∀ last elapsed, (elapsed < 30000)%Z →
       due 1 2 last 1000 30000 (last + elapsed) = false).
Proof.
  split; [|split; [|split; [|split]]].
  - rewrite refreshed_by_tick_elem. unfold slot_due. by rewrite due_spec.
  - destruct (updateKeyboardScreen_schedule now devs st) as (_&_&_&_&_&_& ->).
    apply refresh_stage_invoked.
  - intros. rewrite due_spec. lia.
  - intros last. apply due_spec. left. split; [done|lia].
  - intros last elapsed He. apply not_true_is_false. rewrite due_spec.
    intros [[[=] _]|Hbg]. lia.
Qed.

Lemma active_le_background t : (0 < active_interval t ≤ background_interval t)%Z.
Proof. by destruct t. Qed.

(** C9. When a tick decides to refresh a source, the source's time stamp
    is the time of the tick as soon as the tick is over, while the
    renderers are the ones from before the tick; a refresh that then fails
    changes nothing, so the source is not refreshed again by any tick
    earlier than one active interval after the decision, and is refreshed
    again exactly by the test of the scheduler taken from the decision
    time. *)
Theorem C9_stamp_at_decision now devs st t :
  t ∈ refreshed_by_tick now st →
  let st1 := updateKeyboardScreen darwin now devs st in
  last_updates st1 (slot_of t) = now
  ∧ screens st1 = screens st
  ∧ (∀ at_time, trigger_done t None at_time st1 = st1)
  ∧ (∀ now', (now' - now < active_interval t)%Z → t ∉ refreshed_by_tick now' st1)
  ∧ (∀ now', t ∈ refreshed_by_tick now' st1 ↔
       (currentScreenIndex st = slot_of t ∧ active_interval t ≤ now' - now)
       ∨ background_interval t ≤ now' - now)%Z.
Proof.
  intros Hdue%refreshed_by_tick_elem st1.
  destruct (updateKeyboardScreen_schedule now devs st) as (Hsc & Hc &_&_&_& Hlu &_).
  destruct (refresh_stage_fields now st) as (Hsc0 & Hc0 & _).
  assert (last_updates st1 (slot_of t) = now) as Hlast.
  { unfold st1. by rewrite Hlu, refresh_stage_last, Hdue. }
  assert (∀ now', t ∈ refreshed_by_tick now' st1 ↔
            (currentScreenIndex st = slot_of t ∧ active_interval t ≤ now' - now)
            ∨ background_interval t ≤ now' - now)%Z as Hnext.
  { intros now'. rewrite refreshed_by_tick_elem. unfold slot_due.
    rewrite due_spec, Hlast. unfold st1. by rewrite Hc, Hc0. }
  split; [done|]. split; [unfold st1; by rewrite Hsc, Hsc0|].
  split; [by destruct t|]. split; [|done].
  intros now' Hearly Hin%Hnext. pose proof (active_le_background t). lia.
Qed.

(** C10. In every state the program reaches slot 0 of [screens] is [null];
    so on a tick with screen 0 selected the push stage does nothing at all,
    and over the whole tick [screenBuffer], [screenLastUpdate], the
    suspended sends and the frame packets on the wire stay as they were.
    The program starts with index 0 and a 0 by 0 display. *)
Theorem C10_nothing_pushed_for_screen_0 now devs st :
  reachable darwin st → currentScreenIndex st = 0%N →
  let st1 := connect_stage devs (refresh_stage now st) in
  let st2 := updateKeyboardScreen darwin now devs st in
  screens st !! 0 = Some None
  ∧ push_stage darwin st1 = st1
  ∧ st2 = st1
  ∧ screenBuffer st2 = screenBuffer st
  ∧ screenLastUpdate st2 = screenLastUpdate st
  ∧ suspended st2 = suspended st
  ∧ frames st2 = frames st
  ∧ data_lines (wire st2) = data_lines (wire st)
  ∧ (∀ r : R, currentScreenIndex (initial r) = 0%N
              ∧ screenWidth (initial r) = Num 0 ∧ screenHeight (initial r) = Num 0).
Proof.
  intros (_ & _ & _ & (a & b & c & Hsl))%reachable_inv Hc st1 st2.
  destruct (refresh_stage_fields now st) as (Hsc0&Hc0&_&_&_&Hb0&Hl0&_&_&Hs0&Hw0&Hf0).
  destruct (connect_stage_schedule devs (refresh_stage now st)) as (Hsc1 & Hc1 & _).
  destruct (connect_stage_fields devs (refresh_stage now st)) as (Hb1&Hl1&_&Hs1&Hf1&Hw1).
  assert (push_stage darwin st1 = st1) as Hpush.
  { unfold push_stage, st1. rewrite Hc1, Hc0, Hc, Hsc1, Hsc0, Hsl. simpl.
    by destruct (keyboard _). }
  split; [by rewrite Hsl|]. split; [done|].
  assert (st2 = st1) as -> by done.
  split; [done|]. unfold st1.
  split; [by rewrite Hb1, Hb0|]. split; [by rewrite Hl1, Hl0|].
  split; [by rewrite Hs1, Hs0|]. split; [by rewrite Hf1, Hf0|].
  split; [|done]. unfold data_lines.
  destruct Hw1 as [->| ->]; rewrite ?omap_app, Hw0; simpl; by rewrite ?app_nil_r.
Qed.

End DisplayFacts.

(** ** A write that throws, and two texts with one frame *)

(** C4, evaluated on the code.  The second of three packets throws.  The
    third packet is not written, but the rest of the claim fails:
    [screenBuffer] stays set, [keyboard] is kept, the text stays recorded
    in [screenLastUpdate], and no later push writes anything, be it the
    same text or another one, on this handle or on a fresh one. *)
Theorem C4_write_error_wedges_display :
  let st := after_failing_send in
  data_lines (wire st) = take 1 (build_lines (encode text70 (Num 10) (Num 7)))
  ∧ length (build_lines (encode text70 (Num 10) (Num 7))) = 3
  ∧ suspended st = []
  ∧ screenBuffer st = Some (encode text70 (Num 10) (Num 7))
  ∧ keyboard st = Some {| hid_path := "/dev/hidraw3"; writes_left := Some 0 |}
  ∧ screenLastUpdate st = Some text70
  ∧ fst (sendToKeyboard false (fixed text70) st) = Skipped
  ∧ wire (run false [Tick 1700000002000 [kyria (Some 1)]] st) = wire st
  ∧ data_lines (wire (run false [ Done GetPerfs (Some (fixed (codes "other"))) 1700000002500;
                                  Tick 1700000003000 [kyria (Some 1)];
                                  Error;
                                  Tick 1700000004000 [kyria None];
                                  Tick 1700000005000 [kyria None] ] st))
    = data_lines (wire st).
Proof. vm_compute. repeat split; reflexivity. Qed.


(** ** The theorems at concrete inputs *)

Lemma C1_chunked_send_witness :
  let lines := build_lines (encode text70 (Num 10) (Num 7)) in
  let st' := drain 3 (snd (sendToKeyboard false (fixed text70) idle_10x7)) in
  length lines = 3
  ∧ wire st' = wire idle_10x7 ++ map (Chunk 0) lines
  ∧ screenBuffer st' = None.
Proof.
  pose proof (C1_chunked_send (R:=unit) false (encode text70 (Num 10) (Num 7)))
    as (Hlen & _ & _ & _ & Hsend).
  destruct (Hsend (fixed text70) idle_10x7) as (Hw & Hb & _).
  - reflexivity.
  - eexists. split; reflexivity.
  - reflexivity.
  - reflexivity.
  - vm_compute. discriminate.
  - split; [exact Hlen|]. split; [exact Hw|exact Hb].
Defined.

Lemma C2_frame_length_witness :
  length (encode (codes "AB") (Num 10) (Num 2)) = 20
  ∧ encode (codes "AB") (Num 0) (Num 5) = [].
Proof.
  split.
  - exact (proj1 (C2_frame_length (codes "AB") 10 2)).
  - apply (proj2 (C2_frame_length (codes "AB") 0 5)). reflexivity.
Defined.


Lemma C6_single_flight_witness :
  length (suspended in_flight) ≤ 1
  ∧ sendToKeyboard false (fixed (codes "next")) in_flight
    = (Skipped, after_render (fixed (codes "next")) in_flight).
Proof.
  destruct (C6_single_flight false in_flight) as (Hlen & Hskip & _).
  - apply reachable_run, reachable_initial.
  - split; [exact Hlen|]. apply Hskip. vm_compute. discriminate.
Defined.

Lemma C7_selection_report_witness :
  currentScreenIndex (on_data false [1; 2; 20; 4]%N 1700000001000 [] (initial tt)) = 2%N
  ∧ screenWidth (on_data false [1; 2; 20; 4]%N 1700000001000 [] (initial tt)) = Num 20
  ∧ screenHeight (on_data false [1; 2; 20; 4]%N 1700000001000 [] (initial tt)) = Num 4
  ∧ on_data false [1; 4; 20; 4]%N 1700000001000 [] (initial tt) = initial tt
  ∧ timer (on_data false [1; 2; 20; 4]%N 1700000001000 [] (initial tt))
    = Some 1700000001000%Z
  ∧ invoked (on_data false [1; 2; 20; 4]%N 1700000001000 [] (initial tt))
    = [GetPerfs; GetStocks; GetWeather]
  ∧ wire (on_data false [1; 1; 10; 7]%N 1700000001000 [kyria None] perf_ready)
    = wire perf_ready ++ [Chunk 0 (0 :: 2 :: replicate 30 120)%N].
Proof.
  pose proof (C7_selection_report false [1; 2; 20; 4]%N 1700000001000 [] (initial tt))
    as (_ & _ & Hok & _ & _ & Hpass).
  pose proof (C7_selection_report false [1; 4; 20; 4]%N 1700000001000 [] (initial tt))
    as (_ & _ & _ & Hbad & _).
  pose proof (C7_selection_report false [1; 1; 10; 7]%N 1700000001000 [kyria None] perf_ready)
    as (_ & _ & _ & _ & _ & Hsend).
  destruct (Hok 2%N) as (_ & Hi & Hw & Hh); [reflexivity..|].
  destruct (Hpass 2%N) as (Htimer & Hinvoked & _); [reflexivity..|].
  destruct (Hsend 1%N) as (_ & _ & _ & _ & Hfirst); [reflexivity..|].
  split; [exact Hi|]. split; [exact Hw|]. split; [exact Hh|].
  split; [apply (Hbad 4%N); [reflexivity|simpl; lia]|].
  split; [exact Htimer|]. split; [exact Hinvoked|].
  eapply (Hfirst eq_refl {| hid_path := "/dev/hidraw3"; writes_left := None |}
            (fixed text70)); try reflexivity.
  vm_compute. discriminate.
Defined.

Lemma C8_refresh_decision_witness :
  GetPerfs ∈ refreshed_by_tick 1700000000000 (initial tt).
Proof.
  apply (proj1 (C8_refresh_decision false 1700000000000 [] (initial tt) GetPerfs)).
  right. vm_compute. discriminate.
Defined.

Lemma C9_stamp_at_decision_witness :
  last_updates (updateKeyboardScreen false 1700000000000 [] (initial tt)) SCREEN_PERF = 1700000000000%Z
  ∧ GetPerfs ∉ refreshed_by_tick 1700000000999
                 (updateKeyboardScreen false 1700000000000 [] (initial tt)).
Proof.
  destruct (C9_stamp_at_decision false 1700000000000 [] (initial tt) GetPerfs)
    as (Hlast & _ & _ & Hearly & _).
  - vm_compute. constructor.
  - split; [exact Hlast|]. apply Hearly. reflexivity.
Defined.

Lemma C10_nothing_pushed_for_screen_0_witness :
  screenBuffer (updateKeyboardScreen false 1700000000000 [kyria None] (initial tt)) = None
  ∧ data_lines (wire (updateKeyboardScreen false 1700000000000 [kyria None] (initial tt))) = [].
Proof.
  destruct (C10_nothing_pushed_for_screen_0 false 1700000000000 [kyria None] (initial tt))
    as (_ & _ & _ & Hb & _ & _ & _ & Hw & _).
  - apply reachable_initial.
  - reflexivity.
  - split; [exact Hb|exact Hw].
Defined.

(** ** The layout of the renderers and what the display shows *)

Lemma layout_row_length line (w : nat) :
  length (slice0 (padEnd line (Num (N.of_nat w))) (Num (N.of_nat w))) = w.
Proof.
  unfold slice0, padEnd. rewrite Nat2N.id, length_take, length_app, length_replicate. lia.
Qed.

Lemma layout_row_lookup (line : list N) (w c : nat) :
  c < w →
  slice0 (padEnd line (Num (N.of_nat w))) (Num (N.of_nat w)) !! c
  = Some (default SPACE (line !! c)).
Proof.
  intros Hc. unfold slice0, padEnd. rewrite Nat2N.id, lookup_take_lt by done.
  destruct (decide (c < length line)) as [Hin|Hout].
  - rewrite lookup_app_l by done.
    destruct (lookup_lt_is_Some_2 line c Hin) as [x ->]. done.
  - rewrite lookup_app_r by lia. rewrite (lookup_ge_None_2 line c) by lia.
    rewrite lookup_replicate_2 by lia. done.
Qed.

Lemma concat_rows_lookup {A} (rows : list (list A)) (w r c : nat) :
  Forall (λ row, length row = w) rows → c < w →
  concat rows !! (r * w + c) = rows !! r ≫= (.!! c).
Proof.
  intros Hrows Hc; revert r; induction Hrows as [|row rows Hrow _ IH]; intros r.
  - done.
  - destruct r as [|r]; cbn [concat].
    + rewrite Nat.mul_0_l, Nat.add_0_l, lookup_app_l by lia. done.
    + rewrite lookup_app_r by (rewrite Hrow; lia).
      replace (S r * w + c - length row) with (r * w + c) by (rewrite Hrow; lia).
      apply IH.
Qed.

Lemma concat_rows_length {A} (rows : list (list A)) (w : nat) :
  Forall (λ row, length row = w) rows → length (concat rows) = w * length rows.
Proof.
  induction 1 as [|row rows Hrow _ IH]; simpl; [lia|].
  rewrite length_app, IH, Hrow. lia.
Qed.

Lemma layout_rows lines (w h : nat) :
  Forall (λ row, length row = w)
    (slice0 (map (λ line, slice0 (padEnd line (Num (N.of_nat w))) (Num (N.of_nat w))) lines)
            (Num (N.of_nat h))).
Proof.
  unfold slice0 at 1. apply Forall_take, Forall_forall.
  intros row (line & -> & _)%list_elem_of_fmap. apply layout_row_length.
Qed.

Lemma layout_size lines (w h : nat) :
  length (layout lines (Num (N.of_nat w)) (Num (N.of_nat h)))
  = w * Nat.min h (length lines).
Proof.
  unfold layout. rewrite (concat_rows_length _ w) by apply layout_rows.
  unfold slice0 at 1. by rewrite length_take, length_map, Nat2N.id.
Qed.

Lemma layout_at (lines : list (list N)) (w h r c : nat) (line : list N) :
  lines !! r = Some line → r < h → c < w →
  layout lines (Num (N.of_nat w)) (Num (N.of_nat h)) !! (r * w + c)
  = Some (default SPACE (line !! c)).
Proof.
  intros Hline Hr Hc. unfold layout, jsstring in *.
  rewrite (concat_rows_lookup _ w) by (apply layout_rows || done).
  unfold slice0 at 1. rewrite Nat2N.id, lookup_take_lt by done.
  rewrite list_lookup_fmap, Hline. simpl. by apply layout_row_lookup.
Qed.

(** X1. The text of a renderer fills whole rows: its length is the width times
    the number of lines shown, [h] or fewer when there are fewer lines, so
    it never exceeds the frame of [w * h] cells. *)
Theorem layout_length lines (w h : nat) :
  length (layout lines (Num (N.of_nat w)) (Num (N.of_nat h)))
  = w * Nat.min h (length lines)
  ∧ length (layout lines (Num (N.of_nat w)) (Num (N.of_nat h))) ≤ w * h.
Proof.
  split; [apply layout_size|]. rewrite layout_size.
  apply Nat.mul_le_mono_l. lia.
Qed.

(** X2. In the text of a renderer, row [r] holds line [r]: its characters up
    to the width, then spaces. *)
Theorem layout_lookup (lines : list (list N)) (w h r c : nat) (line : list N) :
  lines !! r = Some line → r < h → c < w →
  layout lines (Num (N.of_nat w)) (Num (N.of_nat h)) !! (r * w + c)
  = Some (default SPACE (line !! c)).
Proof.
  intros Hline Hr Hc. rewrite (layout_at lines w h r c line) by done. done.
Qed.

(** Without a width and a height nothing is padded or cut: the text is
    the lines put end to end, while the frame made from it is empty. *)
Theorem layout_undefined lines :
  layout lines Undefined Undefined = concat lines
  ∧ encode (layout lines Undefined Undefined) Undefined Undefined = [].
Proof.
  split; [|done]. unfold layout, slice0, padEnd. by rewrite map_id.
Qed.

(** X4. The frame for any text, in closed form: the text without its last
    character, then spaces, cut to the number of cells. *)
Theorem encode_closed_form (screen : list N) (w h : nat) :
  encode screen (Num (N.of_nat w)) (Num (N.of_nat h))
  = take (w * h) (take (length screen - 1) screen ++ replicate (w * h) SPACE).
Proof.
  apply list_eq. intros i.
  destruct (decide (i < w * h)) as [Hi|Hi].
  - rewrite encode_lookup by lia. rewrite lookup_take_lt by done.
    destruct (decide (S i < length screen)) as [Hin|Hout].
    + rewrite lookup_app_l by (rewrite length_take; lia).
      rewrite lookup_take_lt by lia. unfold charCodeAt, jsstring in *.
      destruct (lookup_lt_is_Some_2 screen i ltac:(lia)) as [x ->]. done.
    + rewrite lookup_app_r by (rewrite length_take; lia).
      rewrite lookup_replicate_2; [done|]. rewrite length_take. lia.
  - rewrite !lookup_ge_None_2; [done| |].
    + rewrite length_take, length_app, length_take, length_replicate. lia.
    + pose proof (encode_loop_length screen (frame_cells (Num (N.of_nat w)) (Num (N.of_nat h))) 0) as Hlen.
      unfold encode. simpl in *. lia.
Qed.

(** X3. What the display gets from a renderer: cell [c] of row [r] of the
    frame is character [c] of line [r], or a space where the line is
    shorter or missing; only the very last cell of the text is a space
    whatever the line has there. *)
Theorem display_cell (lines : list (list N)) (w h r c : nat) :
  r < h → c < w →
  encode (layout lines (Num (N.of_nat w)) (Num (N.of_nat h)))
         (Num (N.of_nat w)) (Num (N.of_nat h)) !! (r * w + c)
  = Some (if decide (S (r * w + c) < w * Nat.min h (length lines))
          then default SPACE (lines !! r ≫= (.!! c))
          else SPACE).
Proof.
  intros Hr Hc.
  pose proof (layout_size lines w h) as Hlen.
  rewrite encode_lookup by nia. rewrite Hlen. f_equal.
  repeat case_decide; try contradiction; [|done].
  assert (r < length lines) as Hrl by nia.
  destruct (lookup_lt_is_Some_2 lines r Hrl) as [line Hline].
  unfold charCodeAt. rewrite (layout_at lines w h r c line) by done.
  by rewrite Hline.
Qed.

(** ** The stock screen *)

Lemma map_set_keys key value m k :
  k ∈ map fst m → k ∈ map fst (map_set key value m).
Proof.
  induction m as [|[k' v'] m IH]; simpl; [by intros ?%elem_of_nil|].
  intros [->|Hin]%elem_of_cons; destruct (decide (k' = key)) as [->|]; simpl.
  - left.
  - left.
  - by right.
  - right. by apply IH.
Qed.

Lemma map_set_key key value m : key ∈ map fst (map_set key value m).
Proof.
  induction m as [|[k' v'] m IH]; simpl; [left|].
  destruct (decide (k' = key)); simpl; [left|by right].
Qed.

Lemma map_get_set key value m : map_get key (map_set key value m) = Some value.
Proof.
  induction m as [|[k' v'] m IH]; simpl.
  - by rewrite decide_True.
  - destruct (decide (k' = key)) as [->|Hne]; simpl.
    + by rewrite decide_True.
    + by rewrite decide_False.
Qed.

Lemma map_get_set_ne key key' value m :
  key' ≠ key → map_get key' (map_set key value m) = map_get key' m.
Proof.
  intros Hne. induction m as [|[k' v'] m IH]; simpl.
  - by rewrite decide_False.
  - destruct (decide (k' = key)) as [->|Hk]; simpl.
    + by rewrite !decide_False.
    + destruct (decide (k' = key')); [done|apply IH].
Qed.

Lemma map_set_NoDup key value m :
  NoDup (map fst m) → NoDup (map fst (map_set key value m)).
Proof.
  induction m as [|[k' v'] m IH]; simpl; intros Hnd.
  - apply NoDup_singleton.
  - apply NoDup_cons in Hnd as [Hnotin Hnd].
    destruct (decide (k' = key)) as [->|Hne]; simpl.
    + by apply NoDup_cons.
    + apply NoDup_cons. split; [|by apply IH].
      clear IH Hnd. induction m as [|[k2 v2] m IH]; simpl in *.
      * by intros ->%list_elem_of_singleton.
      * apply not_elem_of_cons in Hnotin as [Hk2 Hm].
        destruct (decide (k2 = key)); simpl; apply not_elem_of_cons; split; auto.
Qed.

Lemma fold_map_set_keys {A} (f : A → jskey * jsstring) (xs : list A) m k :
  k ∈ map fst m →
  k ∈ map fst (fold_left (λ m x, map_set (fst (f x)) (snd (f x)) m) xs m).
Proof.
  revert m; induction xs as [|x xs IH]; intros m Hin; simpl; [done|].
  by apply IH, map_set_keys.
Qed.

Lemma initial_stocks_from config m :
  (NoDup (map fst m) → NoDup (map fst
     (fold_left (λ m s, map_set (getStockKey s) (codes "???") m) config m)))
  ∧ ((∀ k, k ∈ map fst m → map_get k m = Some (codes "???")) →
     ∀ k, k ∈ map fst (fold_left (λ m s, map_set (getStockKey s) (codes "???") m) config m) →
          map_get k (fold_left (λ m s, map_set (getStockKey s) (codes "???") m) config m)
          = Some (codes "???"))
  ∧ (∀ s, s ∈ config →
       getStockKey s ∈ map fst
         (fold_left (λ m s, map_set (getStockKey s) (codes "???") m) config m)).
Proof.
  revert m; induction config as [|s config IH]; intros m; simpl.
  - split; [done|]. split; [done|]. by intros s ?%elem_of_nil.
  - destruct (IH (map_set (getStockKey s) (codes "???") m)) as (Hnd & Hget & Hin).
    split; [|split].
    + intros Hm. by apply Hnd, map_set_NoDup.
    + intros Hm. apply Hget. intros k Hk.
      destruct (decide (k = getStockKey s)) as [->|Hne]; [apply map_get_set|].
      rewrite map_get_set_ne by done. apply Hm.
      clear -Hk Hne. induction m as [|[k' v'] m IHm]; simpl in *.
      * by apply list_elem_of_singleton in Hk.
      * destruct (decide (k' = getStockKey s)) as [->|]; simpl in *.
        -- apply elem_of_cons in Hk as [->|Hk]; [done|by right].
        -- apply elem_of_cons in Hk as [->|Hk]; [left|right; by apply IHm].
    + intros s' [->|Hs']%elem_of_cons; [|by apply Hin].
      apply (fold_map_set_keys (λ s, (getStockKey s, codes "???"))), map_set_key.
Qed.

(** X5. When the script starts every configured stock has a row showing "???",
    and stocks with the same key share one row. *)
Theorem initial_stocks_rows config :
  NoDup (map fst (initial_stocks config))
  ∧ (∀ s, s ∈ config →
       map_get (getStockKey s) (initial_stocks config) = Some (codes "???")).
Proof.
  destruct (initial_stocks_from config []) as (Hnd & Hget & Hin).
  split; [apply Hnd; constructor|].
  intros s Hs. apply Hget; [by intros k ?%elem_of_nil|by apply Hin].
Qed.

Lemma max_size_bound (sizes : list nat) n : n ∈ sizes → n ≤ max_size sizes.
Proof.
  induction sizes as [|m sizes IH]; simpl; [by intros ?%elem_of_nil|].
  intros [->|Hin]%elem_of_cons; [lia|]. specialize (IH Hin). lia.
Qed.

Lemma mapM_omap {A B} (f : A → option B) (l : list A) (k : list B) :
  mapM f l = Some k → omap f l = k.
Proof.
  intros H%mapM_Some_1. induction H as [|x y l k Hxy _ IH]; simpl; [done|].
  rewrite Hxy. simpl. f_equal. exact IH.
Qed.

(** X6. The stock screen puts every key in a title column as wide as the
    longest key and every value right after it, one column further: the
    values are aligned. *)
Theorem stock_lines_aligned (stocks : list (jskey * list N)) (lines : list (list N))
    i key value :
  stock_lines stocks = Some lines → stocks !! i = Some (key, value) →
  ∃ k : list N,
    key = KeyString k
    ∧ length k ≤ title_size stocks
    ∧ lines !! i
      = Some (k ++ replicate (title_size stocks - length k) SPACE ++ [SPACE] ++ value)
    ∧ length lines = length stocks.
Proof.
  unfold stock_lines, title_size, jsstring in *. intros Hlines Hi.
  destruct (mapM key_length (map fst stocks)) as [sizes|] eqn:Hsizes; [|done].
  rewrite (mapM_omap _ _ _ Hsizes).
  pose proof (length_mapM _ _ _ Hlines) as Hlen.
  apply mapM_Some_1 in Hlines.
  destruct (Forall2_lookup_l _ _ _ _ _ Hlines Hi) as (line & Hline & Hmake).
  unfold stock_line in Hmake; simpl in Hmake.
  destruct key as [| |k]; try done. injection Hmake as <-.
  exists k. split; [done|]. split; [|split; [|done]].
  - apply max_size_bound. rewrite <- (mapM_omap _ _ _ Hsizes).
    apply list_elem_of_omap. exists (KeyString k). split; [|done].
    apply list_elem_of_fmap. exists (KeyString k, value). split; [done|].
    by eapply list_elem_of_lookup_2.
  - rewrite Hline. unfold padEnd. rewrite Nat2N.id, <- app_assoc. done.
Qed.

(** X7. One configured stock whose [function] is neither of the two known
    ones puts [null] among the keys for good: whatever values the map
    receives afterwards, building the screen throws at line 221, and
    [getStocks] ends without a new renderer or time stamp. *)
Theorem unknown_function_disables_stock_screen {R} config s
    (updates : list (jskey * jsstring)) (t : Z) (st : @state R) :
  s ∈ config →
  stock_function s ≠ Some (codes "GLOBAL_QUOTE") →
  stock_function s ≠ Some (codes "CURRENCY_EXCHANGE_RATE") →
  let stocks := fold_left (λ m u, map_set (fst u) (snd u) m) updates (initial_stocks config) in
  stock_lines stocks = None ∧ getStocks_finish stocks t st = st.
Proof.
  intros Hs Hq Hc stocks.
  assert (stock_lines stocks = None) as Hnone.
  { unfold stock_lines.
    assert (mapM key_length (map fst stocks) = None) as ->; [|done].
    apply mapM_None_2, Exists_exists. exists KeyNull. split; [|done].
    unfold stocks. apply (fold_map_set_keys (λ u, u)).
    destruct (initial_stocks_from config []) as (_ & _ & Hin).
    specialize (Hin s Hs). unfold getStockKey in Hin.
    by rewrite !bool_decide_eq_false_2 in Hin. }
  split; [done|]. unfold getStocks_finish. by rewrite Hnone.
Qed.

(** ** The keys of a quote *)

Lemma skip_digits_app (ds rest : list N) :
  Forall (λ c, is_digit c = true) ds →
  (∀ c rest', rest = c :: rest' → is_digit c = false) →
  skip_digits (ds ++ rest) = rest.
Proof.
  intros Hds Hrest. induction Hds as [|d ds Hd _ IH]; simpl.
  - destruct rest as [|c rest']; [done|]. simpl. by rewrite (Hrest c rest').
  - by rewrite Hd.
Qed.

Lemma skip_digits_split (s : list N) :
  ∃ ds, Forall (λ c, is_digit c = true) ds ∧ s = ds ++ skip_digits s.
Proof.
  induction s as [|c s (ds & Hds & Hs)]; simpl.
  - by exists [].
  - destruct (is_digit c) eqn:Hc.
    + exists (c :: ds). split; [by constructor|]. simpl. by rewrite <- Hs.
    + by exists [].
Qed.

(** X8. A key matches a name exactly when it is the name itself or the name
    after a run of digits, a dot and a space, as in "05. price". *)
Theorem matchStockKey_spec (key test : list N) :
  matchStockKey key test = true ↔
  key = test
  ∨ ∃ ds, Forall (λ c, (48 ≤ c ≤ 57)%N) ds ∧ key = ds ++ codes ". " ++ test.
Proof.
  assert (∀ c, is_digit c = true ↔ (48 ≤ c ≤ 57)%N) as Hdigit.
  { intros c. unfold is_digit. rewrite andb_true_iff, !N.leb_le. done. }
  unfold matchStockKey. rewrite orb_true_iff, bool_decide_eq_true. split.
  - intros [->|Hm]; [by left|]. right.
    destruct (skip_digits_split key) as (ds & Hds & Hkey).
    destruct (skip_digits key) as [|c1 [|c2 rest]]; try done.
    apply andb_true_iff in Hm as [[->%N.eqb_eq ->%N.eqb_eq]%andb_true_iff Hm].
    apply bool_decide_eq_true in Hm as ->.
    exists ds. split; [|done]. eapply Forall_impl; [exact Hds|]. intros c. apply Hdigit.
  - intros [->|(ds & Hds & ->)]; [by left|]. right.
    rewrite skip_digits_app.
    + simpl. by rewrite bool_decide_eq_true.
    + eapply Forall_impl; [exact Hds|]. intros c. apply Hdigit.
    + simpl. by intros c rest' [= <- _].
Qed.

(** ** The wind direction *)

Lemma Qgt_bool_spec (x y : Q) :
  (Qgt_bool x y = true ∧ (y < x)%Q) ∨ (Qgt_bool x y = false ∧ (x <= y)%Q).
Proof.
  unfold Qgt_bool. destruct (Qle_bool x y) eqn:Hle; simpl.
  - right. split; [done|]. by apply Qle_bool_iff.
  - left. split; [done|]. apply Qnot_le_lt. rewrite <- Qle_bool_iff. by rewrite Hle.
Qed.

Lemma Qlt_bool_spec (x y : Q) :
  (Qlt_bool x y = true ∧ (x < y)%Q) ∨ (Qlt_bool x y = false ∧ (y <= x)%Q).
Proof.
  unfold Qlt_bool. destruct (Qle_bool y x) eqn:Hle; simpl.
  - right. split; [done|]. by apply Qle_bool_iff.
  - left. split; [done|]. apply Qnot_le_lt. rewrite <- Qle_bool_iff. by rewrite Hle.
Qed.

Lemma Qle_bool_spec (x y : Q) :
  (Qle_bool x y = true ∧ (x <= y)%Q) ∨ (Qle_bool x y = false ∧ (y < x)%Q).
Proof.
  destruct (Qle_bool x y) eqn:Hle.
  - left. split; [done|]. by apply Qle_bool_iff.
  - right. split; [done|]. apply Qnot_le_lt. rewrite <- Qle_bool_iff. by rewrite Hle.
Qed.

Lemma js_rem_small (deg : Q) :
  (0 <= deg)%Q → (deg < 360)%Q → (js_rem deg 360 == deg)%Q.
Proof.
  intros H0 H1. unfold js_rem.
  assert (Qtrunc (deg / 360) = 0%Z) as ->.
  { destruct deg as [a b]. unfold Qle, Qlt in *. simpl in *.
    unfold Qtrunc. simpl. apply Z.quot_small. lia. }
  simpl. ring.
Qed.

Ltac wind_cases deg :=
  unfold windDirection;
  generalize (js_rem deg 360); intros d;
  destruct (Qgt_bool_spec d (585 # 2)) as [[-> ?]|[-> ?]];
  destruct (Qle_bool_spec d (135 # 2)) as [[-> ?]|[-> ?]];
  destruct (Qgt_bool_spec d (225 # 2)) as [[-> ?]|[-> ?]];
  destruct (Qlt_bool_spec d (495 # 2)) as [[-> ?]|[-> ?]];
  destruct (Qgt_bool_spec d (45 # 2)) as [[-> ?]|[-> ?]];
  destruct (Qlt_bool_spec d (315 # 2)) as [[-> ?]|[-> ?]];
  destruct (Qgt_bool_spec d (405 # 2)) as [[-> ?]|[-> ?]];
  simpl.

(** X9. Whatever the angle, the direction is one of the eight compass points:
    it is never empty and never names two opposite points. *)
Theorem windDirection_compass (degrees : Q) :
  windDirection degrees
  ∈ [codes "N"; codes "NE"; codes "E"; codes "SE";
     codes "S"; codes "SW"; codes "W"; codes "NW"].
Proof.
  wind_cases degrees; try (exfalso; lra);
    rewrite !elem_of_cons; auto 10.
Qed.

(** X10. The compass for an angle from 0 up to 360, as the code draws it.  It
    is turned by the truthy [337.5] of line 274: everything above 292.5 is
    north-west, up to 360, while north alone starts at 0 and ends at
    22.5. *)
Theorem windDirection_table (degrees : Q) :
  (0 <= degrees)%Q → (degrees < 360)%Q →
  ((degrees <= 45 # 2)%Q → windDirection degrees = codes "N")
  ∧ ((45 # 2 < degrees)%Q → (degrees <= 135 # 2)%Q → windDirection degrees = codes "NE")
  ∧ ((135 # 2 < degrees)%Q → (degrees <= 225 # 2)%Q → windDirection degrees = codes "E")
  ∧ ((225 # 2 < degrees)%Q → (degrees < 315 # 2)%Q → windDirection degrees = codes "SE")
  ∧ ((315 # 2 <= degrees)%Q → (degrees <= 405 # 2)%Q → windDirection degrees = codes "S")
  ∧ ((405 # 2 < degrees)%Q → (degrees < 495 # 2)%Q → windDirection degrees = codes "SW")
  ∧ ((495 # 2 <= degrees)%Q → (degrees <= 585 # 2)%Q → windDirection degrees = codes "W")
  ∧ ((585 # 2 < degrees)%Q → windDirection degrees = codes "NW").
Proof.
  intros H0 H1. pose proof (js_rem_small degrees H0 H1) as Hd. revert Hd.
  wind_cases degrees; intros Hd; repeat split; intros;
    first [reflexivity | exfalso; lra].
Qed.

(** ** The packets on the wire *)

Section WireFacts.

Context {R : Type}.
Variable darwin : bool.

Implicit Types (st : @state R) (func : @renderer R).

Lemma chunks_of_chunk frame f line (ws : list written) :
  chunks_of frame (ws ++ [Chunk f line])
  = chunks_of frame ws ++ (if decide (f = frame) then [line] else []).
Proof.
  unfold chunks_of. rewrite omap_app. simpl.
  by destruct (decide (f = frame)).
Qed.

Lemma chunks_of_init frame line (ws : list written) :
  chunks_of frame (ws ++ [Init line]) = chunks_of frame ws.
Proof. unfold chunks_of. rewrite omap_app. simpl. by rewrite app_nil_r. Qed.


Lemma data_lines_init line (ws : list written) :
  data_lines (ws ++ [Init line]) = data_lines ws.
Proof. unfold data_lines. rewrite omap_app. simpl. by rewrite app_nil_r. Qed.

Lemma chunks_of_fresh frame (ws : list written) :
  Forall (λ f, f < frame) (omap frame_of ws) → chunks_of frame ws = [].
Proof.
  unfold chunks_of. induction ws as [|[line|f line] ws IH]; simpl; [done|..].
  - exact IH.
  - intros [Hf Hws]%Forall_cons. rewrite decide_False by lia. by apply IH.
Qed.

Lemma spaced_paced lines : spaced (paced darwin lines).
Proof.
  unfold paced, paced_line. induction lines as [|l lines IH]; simpl; [done|].
  destruct darwin; simpl; exact IH.
Qed.

Lemma spaced_inv line rest :
  spaced (WriteLine line :: rest) → ∃ ms rest', rest = Wait ms :: rest' ∧ spaced rest'.
Proof. destruct rest as [|[ms|l] rest']; simpl; try done. eauto. Qed.


Lemma exec_lines frame ops st buf :
  suspended st = [] → spaced ops →
  chunks_of frame (wire st) ++ written_by ops = build_lines buf →
  (∀ g, g ≠ frame → ∃ b, chunks_of g (wire st) `prefix_of` build_lines b) →
  inits_ok st →
  lines_inv (snd (exec frame ops st)).
Proof.
  intros Hsus Hsp Heq Hother Hinit.
  assert (∀ st', suspended st' = [] → wire st' = wire st → lines_inv st') as Hidle.
  { intros st' Hs Hw. split; [|split].
    - intros f o. rewrite Hs. by intros ?%elem_of_nil.
    - intros g. rewrite Hw. destruct (decide (g = frame)) as [->|Hne]; [|by apply Hother].
      exists buf. rewrite <- Heq. by apply prefix_app_r.
    - unfold inits_ok. by rewrite Hw. }
  assert (∀ st' rest, suspended st' = [(frame, rest)] → wire st' = wire st →
            spaced rest → written_by rest = written_by ops → lines_inv st') as Hwait.
  { intros st' rest Hs Hw Hr Hwr. split; [|split].
    - intros f o. rewrite Hs. intros [= -> ->]%list_elem_of_singleton.
      split; [done|]. exists buf. by rewrite Hw, Hwr.
    - intros g. rewrite Hw. destruct (decide (g = frame)) as [->|Hne]; [|by apply Hother].
      exists buf. rewrite <- Heq. by apply prefix_app_r.
    - unfold inits_ok. by rewrite Hw. }
  destruct ops as [|[ms|line] rest]; simpl.
  - by apply Hidle.
  - apply (Hwait _ rest); [by rewrite Hsus|done..].
  - apply spaced_inv in Hsp as (ms & rest' & -> & Hsp').
    destruct (keyboard_write frame line st) as [st'|] eqn:Hw; simpl; [|by apply Hidle].
    apply keyboard_write_Some in Hw as (h & h' & _ & _ & ->). simpl.
    split; [|split].
    + intros f o. simpl. rewrite Hsus. intros [= -> ->]%list_elem_of_singleton.
      split; [done|]. exists buf. simpl. rewrite chunks_of_chunk, decide_True by done.
      rewrite <- app_assoc. exact Heq.
    + intros g. simpl. rewrite chunks_of_chunk.
      destruct (decide (frame = g)) as [<-|Hne].
      * exists buf. rewrite <- Heq. simpl. apply prefix_app.
        by exists (written_by rest').
      * rewrite app_nil_r. apply Hother. congruence.
    + intros l. simpl. rewrite elem_of_app, list_elem_of_singleton.
      intros [Hin|[=]]. by apply Hinit.
Qed.

Lemma lines_inv_same st st' :
  wire st' = wire st → suspended st' = suspended st → lines_inv st → lines_inv st'.
Proof.
  intros Hw Hs (Hfl & Hwl & Hin). unfold lines_inv, flight_lines_ok, wire_lines_ok, inits_ok.
  by rewrite Hw, Hs.
Qed.

Lemma sendToKeyboard_lines func st :
  Inv st → lines_inv st → lines_inv (snd (sendToKeyboard darwin func st)).
Proof.
  intros (Hw & Hfl & _ & _) HL.
  destruct (sendToKeyboard_cases func st) as [Hskip|[Hb Hl]].
  - rewrite sendToKeyboard_skip by done. by apply (lines_inv_same st).
  - rewrite sendToKeyboard_start by done.
    destruct HL as (_ & Hwl & Hin).
    apply (exec_lines _ _ _ (encode (rendered func st) (screenWidth st) (screenHeight st))).
    + simpl. by apply flight_idle.
    + apply spaced_paced.
    + simpl. rewrite (written_by_paced darwin).
      rewrite chunks_of_fresh; [done|]. apply Hw.
    + intros g _. apply Hwl.
    + exact Hin.
Qed.

Lemma connect_stage_lines devs st :
  Inv st → lines_inv st → lines_inv (connect_stage devs st).
Proof.
  intros (_ & _ & _ & (a & b & c & Hsc)) (Hfl & Hwl & Hin).
  unfold connect_stage. destruct (keyboard st); [done|].
  destruct (find is_keyboard devs) as [d|]; [|done].
  match goal with |- lines_inv ?x => set (st' := x) end.
  assert (wire st' = wire st ++ [Init [0; 1; 4]%N]) as Hw
    by (unfold st'; simpl; by rewrite Hsc).
  assert (suspended st' = suspended st) as Hs by done.
  clearbody st'. split; [|split].
  - intros f ops. rewrite Hs. intros Hfo. destruct (Hfl f ops Hfo) as (Hsp & buf & Heq).
    split; [done|]. exists buf. by rewrite Hw, chunks_of_init.
  - intros g. rewrite Hw, chunks_of_init. apply Hwl.
  - intros l. rewrite Hw, elem_of_app, list_elem_of_singleton.
    intros [Hl|[= ->]]; [by apply Hin|done].
Qed.

Lemma updateKeyboardScreen_lines now devs st :
  Inv st → lines_inv st → lines_inv (updateKeyboardScreen darwin now devs st).
Proof.
  intros HI HL. unfold updateKeyboardScreen.
  destruct (refresh_stage_fields now st) as (_&_&_&_&_&_&_&_&_&Hs&Hw&_).
  pose proof (refresh_stage_inv now st HI) as HI1.
  pose proof (lines_inv_same st _ Hw Hs HL) as HL1.
  pose proof (connect_stage_inv devs _ HI1) as HI2.
  pose proof (connect_stage_lines devs _ HI1 HL1) as HL2.
  unfold push_stage. destruct (keyboard _); [|done].
  destruct (screens _ !! _) as [[func|]|]; try done.
  pose proof (sendToKeyboard_lines func _ HI2 HL2) as HL3.
  by destruct (sendToKeyboard darwin func _).
Qed.

Lemma resume_lines k st : Inv st → lines_inv st → lines_inv (resume k st).
Proof.
  intros (Hw & [Hlen Hall] & _ & _) HL. unfold resume.
  destruct (suspended st !! k) as [[f ops]|] eqn:Hk; [|done].
  pose proof (list_elem_of_lookup_2 _ _ _ Hk) as Hin.
  destruct HL as (Hfl & Hwl & Hinit). destruct (Hfl f ops Hin) as (Hsp & buf & Heq).
  assert (delete k (suspended st) = []) as ->.
  { apply length_zero_iff_nil. apply lookup_lt_Some in Hk as Hlt.
    rewrite length_delete by done. lia. }
  by apply (exec_lines _ _ _ buf).
Qed.

Lemma step_lines e st : Inv st → lines_inv st → lines_inv (step darwin e st).
Proof.
  intros HI HL. destruct e; simpl.
  - unfold triggerUpdate.
    by apply (lines_inv_same (updateKeyboardScreen darwin now devs st)),
      updateKeyboardScreen_lines.
  - by apply updateKeyboardScreen_lines.
  - unfold on_data. destruct (valid_report data st); [|done].
    destruct (index_report data 1) as [|i]; [done|]. unfold triggerUpdate.
    apply (lines_inv_same (updateKeyboardScreen darwin now devs
             (select i (index_report data 2) (index_report data 3) st))); [done..|].
    apply updateKeyboardScreen_lines.
    + apply (Inv_same st); try done. apply HI.
    + by apply (lines_inv_same st).
  - by apply (lines_inv_same st).
  - by apply resume_lines.
  - destruct t, res; simpl; try done; by apply (lines_inv_same st).
Qed.

Lemma reachable_lines st : reachable darwin st → lines_inv st.
Proof.
  induction 1 as [r|e st Hr IH].
  - split; [|split].
    + by intros f ops ?%elem_of_nil.
    + intros f. exists []. apply prefix_nil.
    + by intros l ?%elem_of_nil.
  - apply step_lines; [by apply (reachable_inv darwin)|done].
Qed.

Lemma build_lines_packet buf line :
  line ∈ build_lines buf →
  length line ≤ 32 ∧ line !! 0 = Some 0%N
  ∧ (line !! 1 = Some 2%N ∨ line !! 1 = Some 3%N).
Proof.
  intros (k & Hk)%list_elem_of_lookup_1. unfold build_lines in Hk.
  apply lines_loop_lookup in Hk as [-> _]. simpl. rewrite length_take.
  split; [lia|]. split; [done|]. destruct (decide (k = 0)); auto.
Qed.

Lemma chunk_of_elem frame line (ws : list written) :
  Chunk frame line ∈ ws → line ∈ chunks_of frame ws.
Proof.
  intros Hin. unfold chunks_of. apply list_elem_of_omap.
  exists (Chunk frame line). split; [done|]. simpl. by rewrite decide_True.
Qed.

(** X11. Whatever the program has written, in any run: an initialization
    packet is [0; 1; 4]; the data packets of a frame are the first packets
    of the chunking of one buffer, so a frame on the wire starts with its
    type-2 packet and goes on in order, cut short at most; and no data
    packet has more than 32 entries, the first of them 0. *)
Theorem wire_well_formed st :
  reachable darwin st →
  (∀ line, Init line ∈ wire st → line = [0; 1; 4]%N)
  ∧ (∀ frame, ∃ buf, chunks_of frame (wire st) `prefix_of` build_lines buf)
  ∧ (∀ frame line, Chunk frame line ∈ wire st →
       length line ≤ 32 ∧ line !! 0 = Some 0%N
       ∧ (line !! 1 = Some 2%N ∨ line !! 1 = Some 3%N)).
Proof.
  intros (_ & Hwl & Hin)%reachable_lines. split; [done|]. split; [done|].
  intros frame line Hl%chunk_of_elem. destruct (Hwl frame) as (buf & rest & Hbuf).
  apply (build_lines_packet buf). rewrite Hbuf. apply elem_of_app. by left.
Qed.

(** ** Pacing *)






(** ** After a write has thrown *)

Lemma exec_rejected frame ops st :
  fst (exec frame ops st) = Rejected →
  screenBuffer (snd (exec frame ops st)) = screenBuffer st
  ∧ suspended (snd (exec frame ops st)) = suspended st.
Proof.
  revert st; induction ops as [|[ms|line] ops IH]; intros st; simpl; [done..|].
  destruct (keyboard_write frame line st) as [st'|] eqn:Hw; simpl; [|done].
  apply keyboard_write_Some in Hw as (h & h' & _ & _ & ->).
  intros Hr. by destruct (IH _ Hr) as [-> ->].
Qed.

Lemma wedged_tick now devs st :
  wedged st →
  wedged (updateKeyboardScreen darwin now devs st)
  ∧ data_lines (wire (updateKeyboardScreen darwin now devs st)) = data_lines (wire st).
Proof.
  intros [Hb Hs]. unfold updateKeyboardScreen.
  destruct (refresh_stage_fields now st) as (_&_&_&_&_&Hb0&_&_&_&Hs0&Hw0&_).
  destruct (connect_stage_fields devs (refresh_stage now st)) as (Hb1&_&_&Hs1&_&Hw1).
  set (st1 := connect_stage devs (refresh_stage now st)) in *.
  assert (wedged st1) as Hwd by (split; [by rewrite Hb1, Hb0|by rewrite Hs1, Hs0]).
  assert (data_lines (wire st1) = data_lines (wire st)) as Hd1.
  { destruct Hw1 as [->| ->]; rewrite ?data_lines_init; by rewrite Hw0. }
  unfold push_stage. destruct (keyboard st1); [|done].
  destruct (screens st1 !! _) as [[func|]|]; try done.
  rewrite sendToKeyboard_skip by (left; apply Hwd). done.
Qed.

Lemma wedged_step e st :
  wedged st →
  wedged (step darwin e st)
  ∧ data_lines (wire (step darwin e st)) = data_lines (wire st).
Proof.
  intros Hwd. destruct e; simpl.
  - destruct (wedged_tick now devs st Hwd). done.
  - by apply wedged_tick.
  - unfold on_data. destruct (valid_report data st); [|done].
    destruct (index_report data 1) as [|i]; [done|].
    destruct (wedged_tick now devs
                (select i (index_report data 2) (index_report data 3) st) Hwd). done.
  - done.
  - unfold resume. destruct Hwd as [Hb Hs]. rewrite Hs. done.
  - destruct t, res; done.
Qed.

Lemma wedged_run evs st :
  wedged st →
  wedged (run darwin evs st)
  ∧ data_lines (wire (run darwin evs st)) = data_lines (wire st).
Proof.
  revert st; induction evs as [|e evs IH]; intros st Hwd; [done|].
  destruct (wedged_step e st Hwd) as [Hwd' Hd].
  destruct (IH _ Hwd') as [Hwd'' Hd']. split; [done|].
  unfold run in *; simpl. by rewrite Hd', Hd.
Qed.

(** X13. A write that throws, in a send that wakes up or in one that starts,
    is final: [screenBuffer] stays set with no send left to clear it, and
    whatever happens afterwards (ticks, reports, errors, reconnections,
    refreshes) no data packet is written again. *)
Theorem write_error_is_final st :
  reachable darwin st →
  (∀ k f ops evs,
     suspended st !! k = Some (f, ops) →
     fst (exec f ops (set_suspended (delete k (suspended st)) st)) = Rejected →
     wedged (run darwin evs (resume k st))
     ∧ data_lines (wire (run darwin evs (resume k st)))
       = data_lines (wire (resume k st)))
  ∧ (∀ func evs,
       fst (sendToKeyboard darwin func st) = Rejected →
       wedged (run darwin evs (snd (sendToKeyboard darwin func st)))
       ∧ data_lines (wire (run darwin evs (snd (sendToKeyboard darwin func st))))
         = data_lines (wire (snd (sendToKeyboard darwin func st)))).
Proof.
  intros (_ & [Hlen Hall] & _ & _)%reachable_inv. split.
  - intros k f ops evs Hk Hrej. apply wedged_run.
    unfold resume, wedged. rewrite Hk.
    destruct (exec_rejected _ _ _ Hrej) as [-> ->]. simpl.
    destruct (Hall f ops) as [_ Hb]; [by eapply list_elem_of_lookup_2|].
    split; [done|]. apply length_zero_iff_nil. apply lookup_lt_Some in Hk as Hlt.
    rewrite length_delete by done. lia.
  - intros func evs Hrej. apply wedged_run.
    destruct (sendToKeyboard_cases func st) as [Hskip|[Hb Hl]].
    { by rewrite sendToKeyboard_skip in Hrej. }
    rewrite sendToKeyboard_start in * by done. unfold wedged.
    destruct (exec_rejected _ _ _ Hrej) as [-> ->]. simpl.
    split; [done|]. by apply flight_idle.
Qed.

(** ** The selected screen, the first pass and the search for the keyboard *)

Lemma tick_index now devs st :
  currentScreenIndex (updateKeyboardScreen darwin now devs st) = currentScreenIndex st
  ∧ screenWidth (updateKeyboardScreen darwin now devs st) = screenWidth st
  ∧ screenHeight (updateKeyboardScreen darwin now devs st) = screenHeight st.
Proof.
  destruct (refresh_stage_fields now st) as (_ & Hc & Hw & Hh & _).
  destruct (updateKeyboardScreen_schedule darwin now devs st) as (_ & Hc' & Hw' & Hh' & _).
  by rewrite Hc', Hw', Hh', Hc, Hw, Hh.
Qed.

(** X14. The selected index never leaves the slots: it is at most 3 in every
    state the program reaches, so [screens[currentScreenIndex]] is always
    an entry of the array. *)
Theorem selected_index_in_range st :
  reachable darwin st →
  (currentScreenIndex st ≤ 3)%N
  ∧ is_Some (screens st !! N.to_nat (currentScreenIndex st)).
Proof.
  intros Hr.
  assert (currentScreenIndex st ≤ 3)%N as Hle.
  { induction Hr as [r|e st Hr IH]; [simpl; lia|].
    destruct e; simpl.
    - unfold triggerUpdate. cbn -[updateKeyboardScreen].
      by destruct (tick_index now devs st) as (-> & _).
    - by destruct (tick_index now devs st) as (-> & _).
    - unfold on_data. destruct (valid_report data st) eqn:Hv; [|done].
      apply valid_report_spec in Hv as (_ & i & Hi & Hrange).
      unfold index_report at 1. rewrite Hi.
      destruct (triggerUpdate_selection darwin now devs
                  (select i (index_report data 2) (index_report data 3) st)) as (-> & _).
      simpl. apply (reachable_inv darwin) in Hr as (_ & _ & _ & (a & b & c & Hsc)).
      rewrite Hsc in Hrange. simpl in Hrange. lia.
    - done.
    - unfold resume. destruct (suspended st !! k) as [[f ops]|]; [|done].
      by destruct (exec_schedule f ops (set_suspended (delete k (suspended st)) st))
        as ((_ & -> & _) & _).
    - destruct t, res; done. }
  split; [done|]. apply (reachable_inv darwin) in Hr as (_ & _ & _ & (a & b & c & Hsc)).
  rewrite Hsc. apply lookup_lt_is_Some_2. simpl. lia.
Qed.

(** X15. The time stamps start at 0, so the first pass of the scheduler calls
    all three refresh functions, in the order performance, stocks,
    weather, as soon as the clock is past the longest background interval
    (30 minutes after the epoch). *)
Theorem first_pass_refreshes_all (r : R) now devs :
  (STOCK_BACKGROUND_TIME ≤ now)%Z →
  refreshed_by_tick now (initial r) = [GetPerfs; GetStocks; GetWeather]
  ∧ invoked (step darwin (Startup now devs) (initial r))
    = [GetPerfs; GetStocks; GetWeather].
Proof.
  intros Hnow.
  assert (refreshed_by_tick now (initial r) = [GetPerfs; GetStocks; GetWeather]) as Hall.
  { rewrite refreshed_by_tick_eq.
    assert (∀ t, slot_due t now (initial r) = true) as Hdue.
    { intros t. unfold slot_due. apply due_spec. right. simpl.
      unfold STOCK_BACKGROUND_TIME, STOCK_UPDATE_TIME in Hnow.
      destruct t; simpl; unfold PERF_BACKGROUND_TIME, PERF_UPDATE_TIME, KEYBOARD_UPDATE_TIME,
        STOCK_BACKGROUND_TIME, STOCK_UPDATE_TIME, WEATHER_BACKGROUND_TIME,
        WEATHER_UPDATE_TIME; lia. }
    by rewrite !Hdue. }
  split; [done|]. simpl. unfold triggerUpdate. cbn -[updateKeyboardScreen].
  destruct (updateKeyboardScreen_schedule darwin now devs (initial r))
    as (_&_&_&_&_&_& ->).
  by rewrite refresh_stage_invoked, Hall.
Qed.

Lemma find_first {A} (f : A → bool) (before : list A) d after :
  (∀ x, x ∈ before → f x = false) → f d = true →
  find f (before ++ d :: after) = Some d.
Proof.
  intros Hb Hd. induction before as [|x before IH]; simpl.
  - by rewrite Hd.
  - rewrite (Hb x) by left. apply IH. intros y Hy. apply Hb. by right.
Qed.

Lemma find_none {A} (f : A → bool) (l : list A) :
  (∀ x, x ∈ l → f x = false) → find f l = None.
Proof.
  intros Hl. induction l as [|x l IH]; simpl; [done|].
  rewrite (Hl x) by left. apply IH. intros y Hy. apply Hl. by right.
Qed.

(** X16. The search for the keyboard: with a handle already open nothing is
    looked for; otherwise the first device whose product name, usage and
    usage page all match is opened and told the number of screens, later
    matches are ignored, and without a match nothing changes. *)
Theorem discovery devs st :
  (keyboard st ≠ None → connect_stage devs st = st)
  ∧ (keyboard st = None → (∀ d, d ∈ devs → is_keyboard d = false) →
     connect_stage devs st = st)
  ∧ (keyboard st = None → ∀ before d after,
       devs = before ++ d :: after →
       (∀ x, x ∈ before → is_keyboard x = false) → is_keyboard d = true →
       keyboard (connect_stage devs st)
       = Some {| hid_path := path d; writes_left := accepts d |}
       ∧ wire (connect_stage devs st)
         = wire st ++ [Init [0%N; 1%N; N.of_nat (length (screens st))]])
  ∧ (∀ d, is_keyboard d = true ↔
       product d = KEYBOARD_NAME ∧ usage d = KEYBOARD_USAGE_ID
       ∧ usagePage d = KEYBOARD_USAGE_PAGE).
Proof.
  unfold connect_stage. split; [|split; [|split]].
  - by destruct (keyboard st).
  - intros -> Hnone. by rewrite find_none.
  - intros -> before d after -> Hb Hd. by rewrite find_first.
  - intros d. unfold is_keyboard.
    rewrite !andb_true_iff, String.eqb_eq, !N.eqb_eq. tauto.
Qed.

(** ** Frames without cells *)

Lemma sendToKeyboard_empty func st :
  frame_cells (screenWidth st) (screenHeight st) = 0 →
  wire (snd (sendToKeyboard darwin func st)) = wire st
  ∧ suspended (snd (sendToKeyboard darwin func st)) = suspended st
  ∧ (fst (sendToKeyboard darwin func st) = Skipped
     ∨ (fst (sendToKeyboard darwin func st) = Fulfilled
        ∧ screenBuffer (snd (sendToKeyboard darwin func st)) = None
        ∧ screenLastUpdate (snd (sendToKeyboard darwin func st))
          = Some (rendered func st))).
Proof.
  intros Hcells. destruct (sendToKeyboard_cases func st) as [Hskip|[Hb Hl]].
  - rewrite sendToKeyboard_skip by done. simpl. auto.
  - rewrite sendToKeyboard_start by done. unfold encode. rewrite Hcells. simpl.
    split; [done|]. split; [done|]. right. done.
Qed.

(** X17. A push for a display without cells, with a width or a height that is
    0 or [undefined], writes no packet and suspends nothing: it ends at
    once, with the text recorded as the last one sent.  A report shorter
    than four bytes leaves such a display behind; handling a valid report
    that describes one writes no data packet. *)
Theorem empty_frame data now devs st func :
  (frame_cells (screenWidth st) (screenHeight st) = 0 →
     wire (snd (sendToKeyboard darwin func st)) = wire st
     ∧ suspended (snd (sendToKeyboard darwin func st)) = suspended st
     ∧ (fst (sendToKeyboard darwin func st) = Skipped
        ∨ (fst (sendToKeyboard darwin func st) = Fulfilled
           ∧ screenBuffer (snd (sendToKeyboard darwin func st)) = None
           ∧ screenLastUpdate (snd (sendToKeyboard darwin func st))
             = Some (rendered func st))))
  ∧ (length data < 4 →
     frame_cells (index_report data 2) (index_report data 3) = 0)
  ∧ (frame_cells (index_report data 2) (index_report data 3) = 0 →
     data_lines (wire (on_data darwin data now devs st)) = data_lines (wire st)
     ∧ suspended (on_data darwin data now devs st) = suspended st).
Proof.
  split; [apply sendToKeyboard_empty|]. split.
  - intros Hlen. unfold index_report at 2.
    rewrite (lookup_ge_None_2 data 3) by lia.
    unfold frame_cells. by destruct (index_report data 2).
  - intros Hcells. unfold on_data. destruct (valid_report data st); [|done].
    destruct (index_report data 1) as [|i]; [done|].
    unfold triggerUpdate. cbn -[updateKeyboardScreen data_lines].
    set (st0 := select i (index_report data 2) (index_report data 3) st).
    assert (wire st0 = wire st ∧ suspended st0 = suspended st) as [Hw Hs] by done.
    rewrite <- Hw, <- Hs. unfold updateKeyboardScreen.
    destruct (refresh_stage_fields now st0) as (_&_&Hw0&Hh0&_&_&_&_&_&Hs0&Hwi0&_).
    destruct (connect_stage_fields devs (refresh_stage now st0)) as (_&_&_&Hs1&_&Hw1).
    destruct (connect_stage_schedule devs (refresh_stage now st0)) as (_&_&Hw1'&Hh1'&_).
    set (st1 := connect_stage devs (refresh_stage now st0)) in *.
    assert (data_lines (wire st1) = data_lines (wire st0)) as Hd1.
    { destruct Hw1 as [->| ->]; rewrite ?data_lines_init; by rewrite Hwi0. }
    assert (frame_cells (screenWidth st1) (screenHeight st1) = 0) as Hc1.
    { by rewrite Hw1', Hh1', Hw0, Hh0. }
    unfold push_stage. destruct (keyboard st1); [|by rewrite Hd1, Hs1, Hs0].
    destruct (screens st1 !! _) as [[f|]|]; try by rewrite Hd1, Hs1, Hs0.
    destruct (sendToKeyboard_empty f st1 Hc1) as (Hwe & Hse & _).
    destruct (sendToKeyboard darwin f st1) as [o st2]; simpl in *.
    by rewrite Hwe, Hse, Hd1, Hs1, Hs0.
Qed.

End WireFacts.

(** ** The weather screen *)

Section WeatherFacts.

Variable darwin : bool.

Lemma weather_tick weather now devs (st : @state scroll) :
  screens st !! 3 = Some (Some (weather_renderer weather)) →
  currentScreenIndex st = 3%N →
  screenLastUpdate st = Some (weather_text weather (screenWidth st) (screenHeight st)) →
  let st' := updateKeyboardScreen darwin now devs st in
  screens st' !! 3 = Some (Some (weather_renderer weather))
  ∧ currentScreenIndex st' = 3%N
  ∧ screenLastUpdate st' = Some (weather_text weather (screenWidth st') (screenHeight st'))
  ∧ data_lines (wire st') = data_lines (wire st).
Proof.
  intros Hsc Hidx Hlast st'. unfold st', updateKeyboardScreen.
  destruct (refresh_stage_fields now st) as (Hsc0&Hc0&Hw0&Hh0&_&_&Hl0&_&_&_&Hwi0&_).
  destruct (connect_stage_fields devs (refresh_stage now st)) as (_&Hl1&_&_&_&Hwi1).
  destruct (connect_stage_schedule devs (refresh_stage now st)) as (Hsc1&Hc1&Hw1&Hh1&_).
  set (st1 := connect_stage devs (refresh_stage now st)) in *.
  assert (data_lines (wire st1) = data_lines (wire st)) as Hd1.
  { destruct Hwi1 as [->| ->]; rewrite ?data_lines_init; by rewrite Hwi0. }
  assert (screens st1 !! 3 = Some (Some (weather_renderer weather))) as Hsc'
    by (by rewrite Hsc1, Hsc0).
  assert (currentScreenIndex st1 = 3%N) as Hidx' by (by rewrite Hc1, Hc0).
  assert (screenLastUpdate st1
          = Some (weather_text weather (screenWidth st1) (screenHeight st1))) as Hlast'
    by (by rewrite Hl1, Hl0, Hw1, Hh1, Hw0, Hh0).
  unfold push_stage. destruct (keyboard st1); [|done].
  rewrite Hidx'. change (N.to_nat 3) with 3. rewrite Hsc'.
  rewrite sendToKeyboard_skip by (right; exact Hlast'). done.
Qed.

(** X18. A long weather description never scrolls on the display.  The text
    the renderer returns does not depend on [lastWeatherDescIndex]: once
    the weather screen has been sent, no tick sends it again for the same
    weather and size, whatever the length of the description. *)
Theorem weather_never_scrolls weather (ticks : list (Z * list device_info))
    (st : @state scroll) :
  screens st !! 3 = Some (Some (weather_renderer weather)) →
  currentScreenIndex st = 3%N →
  screenLastUpdate st = Some (weather_text weather (screenWidth st) (screenHeight st)) →
  let st' := run darwin (map (λ t, Tick (fst t) (snd t)) ticks) st in
  (∀ w h s s', fst (weather_renderer weather w h s) = fst (weather_renderer weather w h s'))
  ∧ data_lines (wire st') = data_lines (wire st)
  ∧ screenLastUpdate st' = screenLastUpdate st.
Proof.
  intros Hsc Hidx Hlast st'. split; [done|]. unfold st'. clear st'.
  revert st Hsc Hidx Hlast; induction ticks as [|[now devs] ticks IH];
    intros st Hsc Hidx Hlast; [done|].
  destruct (weather_tick weather now devs st Hsc Hidx Hlast) as (Hsc' & Hidx' & Hlast' & Hd).
  destruct (IH _ Hsc' Hidx' Hlast') as [Hd' Hl'].
  unfold run in *; simpl. rewrite Hd', Hl', Hd. split; [done|].
  destruct (tick_index darwin now devs st) as (_ & Hw & Hh).
  by rewrite Hlast', Hlast, Hw, Hh.
Qed.

End WeatherFacts.

(** ** The further theorems at concrete inputs *)

Lemma layout_lookup_witness :
  layout [codes "AB"; codes "C"] (Num 3) (Num 2) !! 3 = Some 67%N.
Proof.
  apply (layout_lookup [codes "AB"; codes "C"] 3 2 1 0 (codes "C"));
    [reflexivity|lia|lia].
Defined.

Lemma display_cell_witness :
  encode (layout [codes "AB"; codes "C"] (Num 3) (Num 2)) (Num 3) (Num 2) !! 1
  = Some 66%N.
Proof.
  apply (display_cell [codes "AB"; codes "C"] 3 2 0 1); lia.
Defined.

Lemma initial_stocks_rows_witness :
  map_get (getStockKey unknown_stock) (initial_stocks [unknown_stock; unknown_stock])
  = Some (codes "???").
Proof.
  apply (proj2 (initial_stocks_rows [unknown_stock; unknown_stock])). left.
Defined.

Lemma stock_lines_aligned_witness :
  ∃ k : list N,
    KeyString (codes "EUR") = KeyString k
    ∧ length k ≤ title_size two_stocks
    ∧ [codes "AAPL $ 150.1"; codes "EUR  $ 1.08"] !! 1
      = Some (k ++ replicate (title_size two_stocks - length k) SPACE
                ++ [SPACE] ++ codes "$ 1.08")
    ∧ length [codes "AAPL $ 150.1"; codes "EUR  $ 1.08"] = length two_stocks.
Proof.
  apply (stock_lines_aligned two_stocks
           [codes "AAPL $ 150.1"; codes "EUR  $ 1.08"] 1
           (KeyString (codes "EUR")) (codes "$ 1.08")); reflexivity.
Defined.

Lemma unknown_function_disables_stock_screen_witness :
  stock_lines (fold_left (λ m u, map_set (fst u) (snd u) m)
                 [(KeyString (codes "AAPL"), codes "$ 150.1")]
                 (initial_stocks [unknown_stock])) = None.
Proof.
  apply (proj1 (unknown_function_disables_stock_screen (R:=unit)
                  [unknown_stock] unknown_stock
                  [(KeyString (codes "AAPL"), codes "$ 150.1")] 0 (initial tt)
                  ltac:(left) ltac:(discriminate) ltac:(discriminate))).
Defined.

Lemma matchStockKey_spec_witness :
  matchStockKey (codes "05. price") (codes "price") = true.
Proof.
  apply (proj2 (matchStockKey_spec (codes "05. price") (codes "price"))).
  right. exists (codes "05"). split; [|reflexivity].
  repeat constructor; discriminate.
Defined.

Lemma windDirection_table_witness :
  windDirection 350 = codes "NW".
Proof.
  assert (0 <= 350)%Q as H0 by (unfold Qle; simpl; lia).
  assert (350 < 360)%Q as H1 by (unfold Qlt; simpl; lia).
  destruct (windDirection_table 350 H0 H1) as (_&_&_&_&_&_&_&Hnw).
  apply Hnw. unfold Qlt; simpl; lia.
Defined.

Lemma wire_well_formed_witness :
  ∃ buf, chunks_of 0 (wire in_flight) `prefix_of` build_lines buf.
Proof.
  apply (wire_well_formed false in_flight). apply reachable_run, reachable_initial.
Defined.


Lemma write_error_is_final_witness :
  data_lines (wire (run false [Error; Tick 1700000004000 [kyria None]]
                      (resume 0 before_failure)))
  = data_lines (wire (resume 0 before_failure)).
Proof.
  eapply (proj1 (write_error_is_final false before_failure
                   ltac:(apply reachable_run, reachable_initial)) 0);
    vm_compute; reflexivity.
Defined.

Lemma selected_index_in_range_witness :
  (currentScreenIndex in_flight ≤ 3)%N.
Proof.
  apply (selected_index_in_range false in_flight).
  apply reachable_run, reachable_initial.
Defined.

Lemma first_pass_refreshes_all_witness :
  refreshed_by_tick 1700000000000 (initial tt) = [GetPerfs; GetStocks; GetWeather].
Proof.
  apply (proj1 (first_pass_refreshes_all false tt 1700000000000 [] ltac:(vm_compute; discriminate))).
Defined.

Lemma discovery_witness :
  keyboard (connect_stage
              [ {| product := "Mouse"; usage := 97; usagePage := 65376;
                   path := "/dev/hidraw0"; accepts := None |};
                kyria None; kyria (Some 1) ] (initial tt))
  = Some {| hid_path := "/dev/hidraw3"; writes_left := None |}.
Proof.
  pose proof (discovery
    [ {| product := "Mouse"; usage := 97; usagePage := 65376;
         path := "/dev/hidraw0"; accepts := None |};
      kyria None; kyria (Some 1) ] (initial tt)) as (_ & _ & Hopen & _).
  apply (Hopen eq_refl
           [ {| product := "Mouse"; usage := 97; usagePage := 65376;
                path := "/dev/hidraw0"; accepts := None |} ]
           (kyria None) [kyria (Some 1)] eq_refl).
  - by intros x ->%list_elem_of_singleton.
  - reflexivity.
Defined.

Lemma empty_frame_witness :
  data_lines (wire (on_data false [1; 1]%N 1700000001000 [] idle_10x7))
  = data_lines (wire idle_10x7).
Proof.
  pose proof (empty_frame false [1; 1]%N 1700000001000 [] idle_10x7 blank)
    as (_ & Hshort & Hnone).
  apply Hnone, Hshort. simpl. lia.
Defined.

Lemma weather_never_scrolls_witness :
  data_lines (wire (run false [ Tick 1700000002000 [kyria None];
                                Tick 1700000003000 [kyria None] ] weather_shown))
  = data_lines (wire weather_shown).
Proof.
  apply (weather_never_scrolls false drizzle
           [(1700000002000%Z, [kyria None]); (1700000003000%Z, [kyria None])]
           weather_shown); reflexivity.
Defined.
